(** * pmatic: the low level XML-RPC API object ([pmatic/xml_api.py])

    A shallow embedding of the class [XMLAPI]: the address normalisation of
    [_set_address], the name translation of [_to_internal_name], the method
    catalog built by [_init_methods], the lazy initialisation of
    [_initialize] and the dispatch of [__getattr__] / [_call] / [_do_call].

    Python strings are modelled as [string] (sequences of 8-bit characters;
    the character classes of the regular expressions and of [lower] are the
    ASCII ones), the dictionary [self._methods] as a [gmap] keyed by the
    internal method name, the object as a record that is threaded through a
    small state-and-exception monad together with the state of the remote
    side. *)

From Stdlib Require Import Ascii.
From stdpp Require Import gmap strings list fin_maps sorting.

Open Scope string_scope.

(** ** Python string primitives *)

Module Py.

(** [s.startswith(p)] *)
Definition startswith (s p : string) : bool := String.prefix p s.

(** [sub in s] *)
Fixpoint contains (sub s : string) : bool :=
  String.prefix sub s ||
  match s with
  | EmptyString => false
  | String _ rest => contains sub rest
  end.

(** [s.replace(old, new)]: the occurrences of [old] are found from left to
    right and do not overlap; each is replaced by [new], once.  [skip]
    counts the characters of an occurrence that are still to be dropped.
    For the empty [old] Python puts [new] before every character and at
    the end. *)
Fixpoint replace_from (old new : string) (skip : nat) (s : string) : string :=
  match s with
  | EmptyString => EmptyString
  | String c rest =>
      match skip with
      | S k => replace_from old new k rest
      | O =>
          if String.prefix old s
          then new +:+ replace_from old new (String.length old - 1) rest
          else String c (replace_from old new 0 rest)
      end
  end.

Fixpoint intersperse (new s : string) : string :=
  match s with
  | EmptyString => new
  | String c rest => new +:+ String c (intersperse new rest)
  end.

Definition replace (s old new : string) : string :=
  match old with
  | EmptyString => intersperse new s
  | String _ _ => replace_from old new 0 s
  end.

Definition code (c : ascii) : N := N_of_ascii c.

(** the classes [[A-Z]], [[a-z]] and [[a-z0-9]] of the regular expressions *)
Definition is_upper (c : ascii) : bool := (65 <=? code c)%N && (code c <=? 90)%N.
Definition is_lower (c : ascii) : bool := (97 <=? code c)%N && (code c <=? 122)%N.
Definition is_digit (c : ascii) : bool := (48 <=? code c)%N && (code c <=? 57)%N.
Definition is_lower_or_digit (c : ascii) : bool := is_lower c || is_digit c.
(** [.] matches every character but the newline *)
Definition is_dot (c : ascii) : bool := negb (code c =? 10)%N.

Definition lower_char (c : ascii) : ascii :=
  if is_upper c then ascii_of_N (code c + 32) else c.

(** [s.lower()] *)
Fixpoint lower (s : string) : string :=
  match s with
  | EmptyString => EmptyString
  | String c rest => String (lower_char c) (lower rest)
  end.

(** [sep.join(l)] *)
Fixpoint join (sep : string) (l : list string) : string :=
  match l with
  | [] => EmptyString
  | [x] => x
  | x :: rest => x +:+ sep +:+ join sep rest
  end.

(** ["%-Ns" % s]: [s] left-justified in a field of [width] characters *)
Fixpoint spaces (n : nat) : string :=
  match n with
  | O => EmptyString
  | S k => String " " (spaces k)
  end.

(** [s] between double quotes *)
Definition quoted (s : string) : string :=
  String "034" (s +:+ String "034" EmptyString).

Definition ljust (width : nat) (s : string) : string :=
  s +:+ spaces (width - String.length s).

End Py.

(** ** [pmatic.utils] *)

Module utils.

(** Modelled from the spec: [pmatic/utils.py] is not among the sources; the
    specification describes [decamel] as the standard camel-case to
    lowercase-with-underscores conversion: an underscore is inserted
    before each capital that starts a segment (a capital followed by a run
    of lowercase letters, when some character precedes it), and between a
    lowercase letter or digit and the capital that follows it; then
    everything is lower-cased.  [BidCoS] gives [bid_co_s] and [ReGa]
    gives [re_ga].

    [split_segments] is the first pass, the substitution of
    [(.)([A-Z][a-z]+)] by [\1_\2]: [in_run] tells that the scan is inside
    the lowercase run of a match, which is copied up to its end. *)
Fixpoint split_segments (in_run : bool) (s : string) : string :=
  match s with
  | EmptyString => EmptyString
  | String c rest =>
      if in_run && Py.is_lower c then String c (split_segments true rest)
      else
        match rest with
        | String u (String l rest') =>
            if Py.is_dot c && Py.is_upper u && Py.is_lower l
            then String c (String "_" (String u (String l (split_segments true rest'))))
            else String c (split_segments false rest)
        | _ => String c (split_segments false rest)
        end
  end.

(** The second pass, the substitution of [([a-z0-9])([A-Z])] by [\1_\2]. *)
Fixpoint split_humps (s : string) : string :=
  match s with
  | EmptyString => EmptyString
  | String c rest =>
      match rest with
      | String u rest' =>
          if Py.is_lower_or_digit c && Py.is_upper u
          then String c (String "_" (String u (split_humps rest')))
          else String c (split_humps rest)
      | EmptyString => String c EmptyString
      end
  end.

Definition decamel (name : string) : string :=
  Py.lower (split_humps (split_segments false name)).

(** The Python values that are given to the constructor, passed to the
    remote methods and returned by them. *)
Inductive pyobj : Type :=
| PyNone
| PyBool (b : bool)
| PyInt (n : Z)
| PyStr (s : string)
| PyOther (repr : string).

(** Modelled from the spec: [is_string] of [pmatic/utils.py] is not among
    the sources; the construction fails when the address is no string. *)
Definition is_string (o : pyobj) : bool :=
  match o with
  | PyStr _ => true
  | _ => false
  end.

End utils.

(** ** The name translation of [XMLAPI._to_internal_name] *)

Definition _to_internal_name (method_name_api : string) : string :=
  Py.replace
    (Py.replace
       (Py.replace
          (utils.decamel (Py.replace method_name_api "." "_"))
          "bid_co_s" "bidcos")
       "re_ga" "rega")
    "__" "_".


(** ** Exceptions *)

(** Modelled from the spec: [pmatic/exceptions.py] is not among the sources.
    [PMException] and [PMConnectionError] are the two classes that the
    source takes from it, the errors of the client itself: the
    specification's [ConnectionError] is [PMConnectionError], and what it
    calls [ConfigurationError], [ProtocolError] and [MethodNotFound] the
    source raises as [PMException], each with its message.

    [ProtocolError] and [Fault] are the exceptions of the XML-RPC library,
    carried with their rendering by [%s]; [OtherError] is any other
    instance of [Exception] (such as [socket.error]), with the name of its
    class. *)
Inductive exn : Type :=
| PMException (msg : string)
| PMConnectionError (msg : string)
| ProtocolError (str : string)
| Fault (str : string)
| OtherError (cls str : string).

(** the errors of the client itself *)
Definition is_PMException (e : exn) : bool :=
  match e with
  | PMException _ | PMConnectionError _ => true
  | _ => false
  end.

Inductive result (A : Type) : Type :=
| Return (a : A)
| Raise (e : exn).
Arguments Return {A} a.
Arguments Raise {A} e.

(** ** The remote side

    What the XML-RPC library does for the object: [ServerProxy(uri)],
    [proxy.system.listMethods()] and the call of a remote method by its
    name.  Each may raise and may change the state of the world. *)

Record transport (World Proxy : Type) : Type := {
  ServerProxy : string -> World -> result Proxy * World;
  system_listMethods : Proxy -> World -> result (list string) * World;
  remote_call : Proxy -> string -> list utils.pyobj -> World -> result utils.pyobj * World
}.
Arguments ServerProxy {World Proxy} t _ _.
Arguments system_listMethods {World Proxy} t _ _.
Arguments remote_call {World Proxy} t _ _ _ _.

(** ** The object *)

(** The values of [self._methods] *)
Record descriptor : Type := {
  NAME : string;
  INFO : string;
  ARGUMENTS : list string;
  INT_ARGUMENTS : list string
}.

(** The attributes of an [XMLAPI] object.  [_address] is [None] only until
    [_set_address] has run inside [__init__]; [proxy] is no attribute of the
    object until [_connect] has run.  The lock [_api_lock] is left out: the
    model is of one thread. *)
Record XMLAPI (Proxy : Type) : Type := {
  _methods : gmap string descriptor;
  _fail_exc : option exn;
  _initialized : bool;
  _address : option string;
  proxy : option Proxy
}.
Arguments _methods {Proxy} x.
Arguments _fail_exc {Proxy} x.
Arguments _initialized {Proxy} x.
Arguments _address {Proxy} x.
Arguments proxy {Proxy} x.

(** [_set_address], on the object under construction; what is no string
    has no [startswith] *)
Definition _set_address {Proxy} (self : XMLAPI Proxy) (address : utils.pyobj)
  : result (XMLAPI Proxy) :=
  if negb (utils.is_string address)
  then Raise (PMException "Please specify the address of the CCU.")
  else
    match address with
    | utils.PyStr address =>
        let address :=
          if negb (Py.startswith address "https://") && negb (Py.startswith address "http://")
          then "http://" +:+ address +:+ ":2001"
          else address +:+ ":2001" in
        Return {| _methods := _methods self; _fail_exc := _fail_exc self;
                  _initialized := _initialized self; _address := Some address;
                  proxy := proxy self |}
    | _ => Raise (OtherError "AttributeError" "object has no attribute 'startswith'")
    end.

(** [XMLAPI(address)] *)
Definition __init__ {Proxy} (address : utils.pyobj) : result (XMLAPI Proxy) :=
  _set_address
    {| _methods := ∅; _fail_exc := None; _initialized := false;
       _address := None; proxy := None |}
    address.

(** The property [address] *)
Definition address {Proxy} (self : XMLAPI Proxy) : option string := _address self.


(** ** The monad of the methods

    A method runs on the object, the world of the remote side and the text
    written to [sys.stdout] so far; it returns or raises, and the changes it
    made to the state before raising stay.  The messages given to
    [self.logger] change none of these and are left out. *)

Record machine (World Proxy : Type) : Type := {
  world : World;
  self : XMLAPI Proxy;
  stdout : list string
}.
Arguments world {World Proxy} m.
Arguments self {World Proxy} m.
Arguments stdout {World Proxy} m.

Section Methods.

Context {World Proxy : Type} (tp : transport World Proxy).

Definition M (A : Type) : Type :=
  machine World Proxy -> result A * machine World Proxy.

Definition ret {A} (a : A) : M A := fun m => (Return a, m).

Definition raise {A} (e : exn) : M A := fun m => (Raise e, m).

Definition bind {A B} (c : M A) (k : A -> M B) : M B :=
  fun m =>
    match c m with
    | (Return a, m') => k a m'
    | (Raise e, m') => (Raise e, m')
    end.

(** [try: c  except Exception as e: h e] *)
Definition try_except {A} (c : M A) (h : exn -> M A) : M A :=
  fun m =>
    match c m with
    | (Return a, m') => (Return a, m')
    | (Raise e, m') => h e m'
    end.

Notation "'do' x <- c ; k" := (bind c (fun x => k))
  (at level 10, x name, c at level 100, k at level 200).
Notation "'run' c ; k" := (bind c (fun _ => k))
  (at level 10, c at level 100, k at level 200).

(** reading and writing the attributes of [self] *)
Definition get {A} (f : XMLAPI Proxy -> A) : M A :=
  fun m => (Return (f (self m)), m).

Definition set (f : XMLAPI Proxy -> XMLAPI Proxy) : M unit :=
  fun m => (Return tt, {| world := world m; self := f (self m); stdout := stdout m |}).

Definition set_methods (d : gmap string descriptor) (o : XMLAPI Proxy) : XMLAPI Proxy :=
  {| _methods := d; _fail_exc := _fail_exc o; _initialized := _initialized o;
     _address := _address o; proxy := proxy o |}.

Definition set_fail_exc (e : option exn) (o : XMLAPI Proxy) : XMLAPI Proxy :=
  {| _methods := _methods o; _fail_exc := e; _initialized := _initialized o;
     _address := _address o; proxy := proxy o |}.

Definition set_initialized (b : bool) (o : XMLAPI Proxy) : XMLAPI Proxy :=
  {| _methods := _methods o; _fail_exc := _fail_exc o; _initialized := b;
     _address := _address o; proxy := proxy o |}.

Definition set_proxy (p : Proxy) (o : XMLAPI Proxy) : XMLAPI Proxy :=
  {| _methods := _methods o; _fail_exc := _fail_exc o; _initialized := _initialized o;
     _address := _address o; proxy := Some p |}.

(** a step of the remote side *)
Definition remote {A} (f : World -> result A * World) : M A :=
  fun m =>
    let (r, w) := f (world m) in
    (r, {| world := w; self := self m; stdout := stdout m |}).

(** [sys.stdout.write(s)] *)
Definition write (s : string) : M unit :=
  fun m => (Return tt, {| world := world m; self := self m; stdout := stdout m ++ [s] |}).

(** ["%s" % x] for an attribute that is a string or [None] *)
Definition str (x : option string) : string :=
  match x with
  | Some s => s
  | None => "None"
  end.

(** The properties [initialized] and [fail_reason] *)
Definition initialized : M bool := get _initialized.
Definition fail_reason : M (option exn) := get _fail_exc.

(** [_connect]; [ServerProxy(None)] is a [TypeError]. *)
Definition _connect : M unit :=
  do a <- get _address;
  match a with
  | Some a =>
      do p <- remote (ServerProxy tp a);
      set (set_proxy p)
  | None => raise (OtherError "TypeError" "expected string or buffer")
  end.

(** [self._methods.setdefault(k, d)] *)
Definition setdefault (k : string) (d : descriptor) (ms : gmap string descriptor)
  : gmap string descriptor :=
  match ms !! k with
  | Some _ => ms
  | None => <[k := d]> ms
  end.

(** the body of the loop of [_init_methods] *)
Definition add_method (ms : gmap string descriptor) (method : string)
  : gmap string descriptor :=
  let method_name_int := _to_internal_name method in
  setdefault method_name_int
    {| NAME := method; INFO := ""; ARGUMENTS := []; INT_ARGUMENTS := [] |} ms.

(** [_init_methods].  [_initialize_api] runs it after [_connect] has set
    [self.proxy]; on an object without that attribute, which only a direct
    call can meet, the lookup of [system] ends in an [AttributeError]. *)
Definition _init_methods : M unit :=
  run set (set_methods ∅);
  do p <- get proxy;
  match p with
  | Some p =>
      do methods <- remote (system_listMethods tp p);
      do ms <- get _methods;
      set (set_methods (fold_left add_method methods ms))
  | None => raise (OtherError "AttributeError" "'function' object has no attribute 'system'")
  end.

(** [_initialize_api] *)
Definition _initialize_api : M unit :=
  run _connect; _init_methods.

(** [_initialize] *)
Definition _initialize : M unit :=
  do b <- initialized;
  if b then ret tt
  else
    run set (set_fail_exc None);
    try_except
      (run _initialize_api; set (set_initialized true))
      (fun e =>
         run set (set_initialized false);
         run set (set_fail_exc (Some e));
         raise e).

(** [_get_method] *)
Definition _get_method (method_name_int : string) : M descriptor :=
  do ms <- get _methods;
  match ms !! method_name_int with
  | Some d => ret d
  | None =>
      raise (PMException ("Method " +:+ Py.quoted method_name_int +:+ " is not a valid method."))
  end.

(** [_do_call] *)
Definition _do_call (method_name_int : string) (args : list utils.pyobj)
  : M utils.pyobj :=
  do method <- _get_method method_name_int;
  do p <- get proxy;
  match p with
  | Some p =>
      do a <- get address;
      try_except
        (remote (remote_call tp p (NAME method) args))
        (fun e =>
           match e with
           | ProtocolError perr =>
               raise (PMConnectionError
                        ("Unable to open " +:+ Py.quoted (str a) +:+ ": " +:+ perr))
           | Fault fault =>
               raise (PMException
                        ("Server error calling " +:+ Py.quoted method_name_int
                         +:+ ": " +:+ fault))
           | _ => raise e
           end)
  | None =>
      (* the attribute is looked up through [__getattr__], which
         initializes; the function it returns has no attributes *)
      run _initialize;
      raise (OtherError "AttributeError" "'function' object has no attribute")
  end.

(** [_call] *)
Definition _call (method_name_int : string) (args : list utils.pyobj)
  : M utils.pyobj :=
  _do_call method_name_int args.

(** [__getattr__] *)
Definition __getattr__ (method_name_int : string)
  : M (list utils.pyobj -> M utils.pyobj) :=
  run _initialize;
  ret (fun args => _call method_name_int args).

(** [API.method_name_int( *args )] for a name that is no attribute of the
    object: the attribute lookup, then the call of what it returned. *)
Definition invoke (method_name_int : string) (args : list utils.pyobj)
  : M utils.pyobj :=
  do f <- __getattr__ method_name_int;
  f args.

(** [sorted(self._methods.items())]: the keys are distinct, so the items
    are ordered by their keys. *)
Definition item_le (x y : string * descriptor) : Prop :=
  String.leb x.1 y.1 = true.

#[local] Instance item_le_dec x y : Decision (item_le x y).
Proof. unfold item_le. apply _. Defined.

Definition sorted_items (ms : gmap string descriptor) : list (string * descriptor) :=
  merge_sort item_le (map_to_list ms).

(** ["%-60s %s\n" % (a, b)] *)
Definition line_format (a b : string) : string :=
  Py.ljust 60 a +:+ " " +:+ b +:+ String "010" EmptyString.

Definition call_txt (item : string * descriptor) : string :=
  "API." +:+ item.1 +:+ "(" +:+ Py.join ", " (INT_ARGUMENTS item.2) +:+ ")".

Fixpoint for_each {A} (l : list A) (body : A -> M unit) : M unit :=
  match l with
  | [] => ret tt
  | x :: rest => run body x; for_each rest body
  end.

(** [print_methods] *)
Definition print_methods : M unit :=
  run _initialize;
  run write (line_format "Method" "Description");
  do ms <- get _methods;
  for_each (sorted_items ms)
    (fun item => write (line_format (call_txt item) (INFO item.2))).

End Methods.

(** ** A scripted remote side

    A CCU that refuses the listing a number of times before it answers, and
    answers the calls with the replies of a script. *)

Module Sim.

Record ccu : Type := {
  refusals : nat;
  listing : list string;
  replies : list (result utils.pyobj);
  requests : list (string * list utils.pyobj)
}.

Definition refused : exn := OtherError "socket.error" "[Errno 111] Connection refused".

Definition tp : transport ccu string := {|
  ServerProxy uri w := (Return uri, w);
  system_listMethods p w :=
    match refusals w with
    | S k => (Raise refused,
              {| refusals := k; listing := listing w; replies := replies w;
                 requests := requests w |})
    | O => (Return (listing w), w)
    end;
  remote_call p name args w :=
    match replies w with
    | r :: rs => (r, {| refusals := refusals w; listing := listing w; replies := rs;
                        requests := requests w ++ [(name, args)] |})
    | [] => (Return utils.PyNone,
             {| refusals := refusals w; listing := listing w; replies := [];
                requests := requests w ++ [(name, args)] |})
    end
|}.

Definition uri : string := "http://192.168.1.26:2001".

(** the object [XMLAPI("192.168.1.26")] *)
Definition api0 : XMLAPI string :=
  {| _methods := ∅; _fail_exc := None; _initialized := false;
     _address := Some uri; proxy := None |}.

Definition names : list string :=
  ["system.listMethods"; "Foo.Bar"; "foo.bar"; "CCU.getSerial"].

(** a CCU that answers, and one that refuses the first listing *)
Definition up (script : list (result utils.pyobj)) : ccu :=
  {| refusals := 0; listing := names; replies := script; requests := [] |}.

Definition down_once : ccu :=
  {| refusals := 1; listing := names; replies := []; requests := [] |}.

(** the new object facing the CCU [w], and the same after [_initialize] *)
Definition boot (w : ccu) : machine ccu string :=
  {| world := w; self := api0; stdout := [] |}.

Definition ready (w : ccu) : machine ccu string := (_initialize tp (boot w)).2.

(** an object that is connected but not initialized *)
Definition connected (w : ccu) : machine ccu string :=
  {| world := w;
     self := {| _methods := ∅; _fail_exc := None; _initialized := false;
                _address := Some uri; proxy := Some uri |};
     stdout := [] |}.

(** an object that is not initialized and holds a catalog *)
Definition stale (w : ccu) : machine ccu string :=
  {| world := w;
     self := {| _methods := {[ "old_method" :=
                                 {| NAME := "Old.method"; INFO := "";
                                    ARGUMENTS := []; INT_ARGUMENTS := [] |} ]};
                _fail_exc := None; _initialized := false;
                _address := Some uri; proxy := Some uri |};
     stdout := [] |}.

End Sim.

(** ** The vocabulary of the statements *)

(** the address of the object [XMLAPI(address)], when it is constructed *)
Definition normalize (address : string) : option string :=
  match @__init__ unit (utils.PyStr address) with
  | Return o => _address o
  | Raise _ => None
  end.

(** the last step of [_to_internal_name] *)
Definition collapse (s : string) : string := Py.replace s "__" "_".

(** the descriptor that [_init_methods] builds for a remote name *)
Definition new_descriptor (method : string) : descriptor :=
  {| NAME := method; INFO := ""; ARGUMENTS := []; INT_ARGUMENTS := [] |}.

(** the first remote name of the listing with the local name [k] *)
Definition first_named (k : string) (methods : list string) : option string :=
  List.find (fun n => bool_decide (_to_internal_name n = k)) methods.

Section Vocabulary.

Context {World Proxy : Type} (tp : transport World Proxy).

Implicit Types (m : machine World Proxy) (e : exn) (w : World).

(** the machine with another world and another object *)
Definition with_state m (w : World) (o : XMLAPI Proxy) : machine World Proxy :=
  {| world := w; self := o; stdout := stdout m |}.

(** the object at the start of an attempt: the recorded failure is cleared *)
Definition cleared (o : XMLAPI Proxy) : XMLAPI Proxy := set_fail_exc None o.

(** the object after a failed attempt *)
Definition failed e (o : XMLAPI Proxy) : XMLAPI Proxy :=
  set_fail_exc (Some e) (set_initialized false o).

(** what [_do_call] raises when the call of the remote method raises [e] *)
Definition surfaced (a : option string) (method_name_int : string) e : exn :=
  match e with
  | ProtocolError perr =>
      PMConnectionError ("Unable to open " +:+ Py.quoted (str a) +:+ ": " +:+ perr)
  | Fault fault =>
      PMException
        ("Server error calling " +:+ Py.quoted method_name_int +:+ ": " +:+ fault)
  | _ => e
  end.

Definition method_not_found (method_name_int : string) : exn :=
  PMException ("Method " +:+ Py.quoted method_name_int +:+ " is not a valid method.").

(** an attempt on the address [a] in the world [w] fails with [e], at the
    connect or at the listing, and leaves the world [w'] *)
Definition init_fails (a : string) w e (w' : World) : Prop :=
  ServerProxy tp a w = (Raise e, w') \/
  exists p w1,
    ServerProxy tp a w = (Return p, w1) /\ system_listMethods tp p w1 = (Raise e, w').

(** an attempt succeeds with the proxy [p] and the listing [methods] *)
Definition init_succeeds (a : string) w (p : Proxy) (methods : list string) (w' : World)
  : Prop :=
  exists w1,
    ServerProxy tp a w = (Return p, w1) /\ system_listMethods tp p w1 = (Return methods, w').

End Vocabulary.

(** ** The wrapper [init] *)

Section Init.

Context {Proxy : Type}.

(** [XMLAPI( **kwargs )], the call of [__init__(self, address, **kwargs)] on
    the new object: a keyword named [self] is a [TypeError], as that
    parameter has its value already; without the keyword [address] the call
    is a [TypeError] too.  The texts of the two, [text_self] and
    [text_missing], are the interpreter's.  The other keywords are taken by
    [__init__] and not used. *)
Definition XMLAPI_new (text_self text_missing : string)
    (kwargs : gmap string utils.pyobj) : result (XMLAPI Proxy) :=
  match kwargs !! "self" with
  | Some _ => Raise (OtherError "TypeError" text_self)
  | None =>
      match kwargs !! "address" with
      | Some address => __init__ address
      | None => Raise (OtherError "TypeError" text_missing)
      end
  end.

(** [init(mode, **kwargs)]; [kwargs] holds the keywords other than [mode] *)
Definition init (text_self text_missing : string) (mode : utils.pyobj)
    (kwargs : gmap string utils.pyobj) : result (XMLAPI Proxy) :=
  match XMLAPI_new text_self text_missing kwargs with
  | Return o => Return o
  | Raise (OtherError cls e) =>
      if String.eqb cls "TypeError"
      then Raise (PMException
                    ("You need to provide at least the address to access your CCU via XML-RPC ("
                     +:+ e +:+ ")."))
      else Raise (OtherError cls e)
  | Raise e => Raise e
  end.

End Init.

(** ** The uses of an object *)

Section Operations.

Context {World Proxy : Type} (tp : transport World Proxy).

(** what a caller does with an object: [API.name], [API.name( *args )],
    [API._call(name, *args)] and [API.print_methods()] *)
Inductive operation : Type :=
| Getattr (method_name_int : string)
| Invoke (method_name_int : string) (args : list utils.pyobj)
| Call (method_name_int : string) (args : list utils.pyobj)
| PrintMethods.

(** the machine after an operation, whether it returned or raised *)
Definition after (o : operation) (m : machine World Proxy) : machine World Proxy :=
  match o with
  | Getattr n => (__getattr__ tp n m).2
  | Invoke n args => (invoke tp n args m).2
  | Call n args => (_call tp n args m).2
  | PrintMethods => (print_methods tp m).2
  end.

(** the machines that arise from a constructed object by these operations,
    while the remote side may change by itself *)
Inductive reachable : machine World Proxy -> Prop :=
| reachable_new address o w :
    __init__ address = Return o ->
    reachable {| world := w; self := o; stdout := [] |}
| reachable_after o m :
    reachable m -> reachable (after o m)
| reachable_world m w :
    reachable m -> reachable (with_state m w (self m)).

(** the state of an object is consistent *)
Definition consistent (o : XMLAPI Proxy) : Prop :=
  (exists a, _address o = normalize a)
  /\ is_Some (_address o)
  /\ (_initialized o = true -> _fail_exc o = None /\ is_Some (proxy o))
  /\ (_methods o <> ∅ -> is_Some (proxy o))
  /\ (forall k d, _methods o !! k = Some d ->
                  d = new_descriptor (NAME d) /\ _to_internal_name (NAME d) = k).

End Operations.

(** ** The example [list_devices_with_low_battery.py] *)

Module low_battery.

(** What the script reads of a device: its name and what [battery_low()]
    gives.  [pmatic.api] and [pmatic.entities] are not among the sources:
    the results of [pmatic.api.init] and of [Device.get_devices] are given
    to the script. *)
Record device : Type := {
  name : string;
  battery_low : result bool
}.

(** the [for ... else] of the script, with the lines it prints: the loop has
    no [break], so the [else] part runs whenever the loop ends *)
Fixpoint report (devices : list device) : result unit * list string :=
  match devices with
  | [] => (Return tt, ["  All battery powered devices are fine."])
  | d :: rest =>
      match battery_low d with
      | Raise e => (Raise e, [])
      | Return low =>
          let (r, out) := report rest in
          (r, ((if low then ["  " +:+ name d] else []) ++ out)%list)
      end
  end.

(** the script *)
Definition main {API} (api : result API) (get_devices : API -> result (list device))
  : result unit * list string :=
  match api with
  | Raise e => (Raise e, [])
  | Return API =>
      match get_devices API with
      | Raise e => (Raise e, ["Low battery: "])
      | Return devices =>
          let (r, out) := report devices in
          (r, "Low battery: " :: out)
      end
  end.

End low_battery.

(** ** The characters of a name *)

(** every character of [s] satisfies [P] *)
Fixpoint all_chars (P : ascii -> bool) (s : string) : bool :=
  match s with
  | EmptyString => true
  | String c rest => P c && all_chars P rest
  end.

Definition not_dot (c : ascii) : bool := negb (Ascii.eqb c ".").

(** neither a capital letter nor a dot *)
Definition identifier_char (c : ascii) : bool := negb (Py.is_upper c) && not_dot c.

(** * Properties *)

(** ** Strings *)

Section Strings.

Lemma prefix_empty s : String.prefix "" s = true.
Proof. by destruct s. Qed.

Lemma prefix_cons a b s t :
  String.prefix (String a s) (String b t)
  = if ascii_dec a b then String.prefix s t else false.
Proof. reflexivity. Qed.

Lemma app_cons a s r : String a s +:+ r = String a (s +:+ r).
Proof. reflexivity. Qed.

Lemma startswith_iff s p : Py.startswith s p = true <-> exists r, s = p +:+ r.
Proof.
  unfold Py.startswith. revert s.
  induction p as [|a p IH]; intros s.
  - rewrite prefix_empty. split; [eauto | done].
  - destruct s as [|b s].
    + split; [done | intros [r Hr]; discriminate].
    + rewrite prefix_cons. destruct (ascii_dec a b) as [->|Hne].
      * rewrite IH. split; intros [r Hr]; exists r; rewrite app_cons in *; congruence.
      * split; [done | intros [r Hr]; rewrite app_cons in Hr; congruence].
Qed.

Lemma contains_here sub s : String.prefix sub s = true -> Py.contains sub s = true.
Proof. intros H. destruct s; cbn [Py.contains]; rewrite H; done. Qed.

Lemma contains_cons sub c s :
  Py.contains sub (String c s) = String.prefix sub (String c s) || Py.contains sub s.
Proof. reflexivity. Qed.

Lemma prefix_app p r : String.prefix p (p +:+ r) = true.
Proof. apply (startswith_iff (p +:+ r) p). eauto. Qed.

(** a string contains what stands in its middle *)
Lemma contains_middle sub l r : Py.contains sub (l +:+ sub +:+ r) = true.
Proof.
  induction l as [|c l IH].
  - change ("" +:+ sub +:+ r) with (sub +:+ r).
    apply contains_here, prefix_app.
  - change (String c l +:+ sub +:+ r) with (String c (l +:+ sub +:+ r)).
    rewrite contains_cons, IH. apply orb_true_r.
Qed.

(** *** [replace] reads its argument from left to right *)

Lemma replace_from_skip old new x rest :
  Py.replace_from old new (String.length x) (x +:+ rest)
  = Py.replace_from old new 0 rest.
Proof.
  induction x as [|c x IH]; [reflexivity|].
  rewrite app_cons. cbn [String.length Py.replace_from]. exact IH.
Qed.

(** an occurrence at the head is replaced, and the scan goes on behind it *)
Lemma replace_occurrence a old new rest :
  Py.replace (String a old +:+ rest) (String a old) new
  = new +:+ Py.replace rest (String a old) new.
Proof.
  unfold Py.replace. rewrite app_cons. cbn [Py.replace_from].
  assert (String.prefix (String a old) (String a (old +:+ rest)) = true) as ->
    by apply (prefix_app (String a old) rest).
  replace (String.length (String a old) - 1) with (String.length old)
    by (cbn [String.length]; lia).
  by rewrite replace_from_skip.
Qed.

(** a character that starts no occurrence is kept *)
Lemma replace_other c rest a old new :
  String.prefix (String a old) (String c rest) = false ->
  Py.replace (String c rest) (String a old) new
  = String c (Py.replace rest (String a old) new).
Proof.
  intros H. unfold Py.replace. cbn [Py.replace_from]. by rewrite H.
Qed.

End Strings.

(** ** The collapse of doubled underscores, [replace("__", "_")] *)

Section Collapse.

Lemma collapse_empty : collapse "" = "".
Proof. reflexivity. Qed.

Lemma collapse_pair r : collapse (String "_" (String "_" r)) = String "_" (collapse r).
Proof. apply (replace_occurrence "_" "_" "_" r). Qed.

Lemma collapse_single c r :
  String.prefix "__" (String c r) = false ->
  collapse (String c r) = String c (collapse r).
Proof. apply replace_other. Qed.

(** the three shapes of a string, as [replace] reads it *)
Lemma collapse_cases s :
  s = "" \/
  (exists r, s = String "_" (String "_" r)) \/
  (exists c r, s = String c r /\ String.prefix "__" (String c r) = false).
Proof.
  destruct s as [|c r]; [by left | right].
  destruct (String.prefix "__" (String c r)) eqn:H; [left | right; eauto].
  apply (startswith_iff (String c r) "__") in H as [r' ->]. eauto.
Qed.

(** the result starts with an underscore exactly when the argument does *)
Lemma collapse_head s : String.prefix "_" (collapse s) = String.prefix "_" s.
Proof.
  destruct (collapse_cases s) as [-> | [[r ->] | (c & r & -> & H)]].
  - reflexivity.
  - rewrite collapse_pair, !prefix_cons, !prefix_empty. reflexivity.
  - rewrite collapse_single, !prefix_cons, !prefix_empty by done. reflexivity.
Qed.

(** One pass halves every run of underscores, rounding up: the result has
    a doubled underscore exactly when the argument has a tripled one. *)
Lemma collapse_doubled_bounded n :
  forall s, String.length s <= n ->
    Py.contains "__" (collapse s) = Py.contains "___" s.
Proof.
  induction n as [|n IH]; intros s Hlen.
  - destruct s; [reflexivity | simpl in Hlen; lia].
  - destruct (collapse_cases s) as [-> | [[r ->] | (c & r & -> & H)]].
    + reflexivity.
    + rewrite collapse_pair. simpl in Hlen.
      rewrite !contains_cons, IH by lia.
      rewrite (prefix_cons _ _ _ (collapse r)), collapse_head.
      rewrite !(prefix_cons "_" "_").
      destruct (ascii_dec "_" "_") as [_|Hne]; [|done].
      destruct r as [|c r]; [reflexivity|].
      rewrite !prefix_cons, !prefix_empty.
      destruct (ascii_dec "_" c); reflexivity.
    + rewrite collapse_single by done. simpl in Hlen.
      rewrite !contains_cons, IH by lia. f_equal.
      rewrite prefix_cons in H. rewrite !prefix_cons, collapse_head.
      destruct (ascii_dec "_" c); [|reflexivity].
      rewrite H. destruct r as [|c' r]; [reflexivity|].
      rewrite prefix_cons in H |- *. destruct (ascii_dec "_" c'); [|reflexivity].
      rewrite prefix_empty in H. done.
Qed.

Lemma collapse_doubled s : Py.contains "__" (collapse s) = Py.contains "___" s.
Proof. by apply (collapse_doubled_bounded (String.length s)). Qed.

End Collapse.

(** ** Address normalisation and name translation *)

(** C1: for every string address, the address stored at construction is the
    supplied string followed by [:2001] when it starts with [http://] or
    [https://], and [http://] followed by the string and [:2001] otherwise;
    so [192.168.1.26] gives [http://192.168.1.26:2001] and
    [https://ccu.local] gives [https://ccu.local:2001]. *)
Theorem address_normalization (a : string) :
  normalize a
  = Some (if Py.startswith a "http://" || Py.startswith a "https://"
          then a +:+ ":2001"
          else "http://" +:+ a +:+ ":2001")
  /\ normalize ("http://" +:+ a) = Some (("http://" +:+ a) +:+ ":2001")
  /\ normalize ("https://" +:+ a) = Some (("https://" +:+ a) +:+ ":2001")
  /\ normalize "192.168.1.26" = Some "http://192.168.1.26:2001"
  /\ normalize "https://ccu.local" = Some "https://ccu.local:2001".
Proof.
  assert (forall s, normalize s
                    = Some (if Py.startswith s "http://" || Py.startswith s "https://"
                            then s +:+ ":2001"
                            else "http://" +:+ s +:+ ":2001")) as Hn.
  { intros s. unfold normalize, __init__, _set_address. cbn [_address].
    destruct (Py.startswith s "https://"), (Py.startswith s "http://"); reflexivity. }
  split; [apply Hn|]. split; [|split; [|split; reflexivity]].
  - rewrite Hn. unfold Py.startswith at 1. by rewrite prefix_app.
  - rewrite Hn. unfold Py.startswith at 2. rewrite prefix_app. by rewrite orb_true_r.
Qed.

(** C2: the translation of [Interface.activateLinkParamset] is
    [interface_activate_link_paramset] and that of [CCU.getSerial] is
    [ccu_get_serial]; the steps are: dots to underscores, decamelization,
    the corrections of [bid_co_s] to [bidcos] and of [re_ga] to [rega], the
    collapse of doubled underscores. *)
Theorem to_internal_name_examples :
  _to_internal_name "Interface.activateLinkParamset" = "interface_activate_link_paramset"
  /\ _to_internal_name "CCU.getSerial" = "ccu_get_serial"
  /\ Py.replace "Interface.activateLinkParamset" "." "_" = "Interface_activateLinkParamset"
  /\ utils.decamel "Interface_activateLinkParamset" = "interface_activate_link_paramset"
  /\ utils.decamel "CCU_getSerial" = "ccu_get_serial"
  /\ utils.decamel "BidCoS" = "bid_co_s"
  /\ utils.decamel "ReGa" = "re_ga"
  /\ _to_internal_name "BidCoS_RF.listDevices" = "bidcos_rf_list_devices"
  /\ _to_internal_name "ReGa.runScript" = "rega_run_script"
  /\ _to_internal_name "Foo.Bar" = "foo_bar".
Proof. repeat split; vm_compute; reflexivity. Qed.

(** C3, as stated, fails: the replacement of doubled underscores is one pass
    from left to right, so a run of three underscores leaves two. *)
Lemma to_internal_name_keeps_doubled_underscore :
  _to_internal_name "a...b" = "a__b"
  /\ Py.contains "__" (_to_internal_name "a...b") = true.
Proof. split; vm_compute; reflexivity. Qed.

(** C3, amended: the last step replaces every occurrence of a doubled
    underscore, found from left to right without overlap, once; the local
    identifier has two consecutive underscores exactly when the name that
    the earlier steps produced has three. *)
Theorem to_internal_name_doubled_underscore (method_name_api : string) :
  Py.contains "__" (_to_internal_name method_name_api)
  = Py.contains "___"
      (Py.replace
         (Py.replace (utils.decamel (Py.replace method_name_api "." "_"))
            "bid_co_s" "bidcos")
         "re_ga" "rega").
Proof. unfold _to_internal_name. apply collapse_doubled. Qed.

(** ** The catalog *)

Section Catalog.

Lemma add_method_lookup ms n k :
  add_method ms n !! k
  = match ms !! k with
    | Some d => Some d
    | None => if decide (_to_internal_name n = k) then Some (new_descriptor n) else None
    end.
Proof.
  unfold add_method, setdefault.
  destruct (decide (_to_internal_name n = k)) as [->|Hne].
  - destruct (ms !! k) eqn:Hk; [by rewrite Hk|].
    by rewrite lookup_insert_eq.
  - destruct (ms !! _to_internal_name n); [by destruct (ms !! k)|].
    rewrite lookup_insert_ne by done. by destruct (ms !! k).
Qed.

Lemma fold_add_method_lookup methods :
  forall ms k,
    fold_left add_method methods ms !! k
    = match ms !! k with
      | Some d => Some d
      | None => new_descriptor <$> first_named k methods
      end.
Proof.
  induction methods as [|n methods IH]; intros ms k; cbn [fold_left].
  - by destruct (ms !! k).
  - rewrite IH, add_method_lookup. unfold first_named. cbn [List.find].
    destruct (ms !! k); [done|].
    destruct (decide (_to_internal_name n = k)) as [Heq|Hne].
    + by rewrite bool_decide_eq_true_2.
    + by rewrite bool_decide_eq_false_2.
Qed.

(** the catalog built from a listing, starting from the empty one *)
Lemma catalog_lookup methods k :
  fold_left add_method methods ∅ !! k = new_descriptor <$> first_named k methods.
Proof. by rewrite fold_add_method_lookup, lookup_empty. Qed.

Lemma first_named_Some k methods n :
  first_named k methods = Some n -> n ∈ methods /\ _to_internal_name n = k.
Proof.
  unfold first_named. intros H. apply find_some in H as [Hin Hk].
  split; [by apply list_elem_of_In | by apply bool_decide_eq_true_1 in Hk].
Qed.

Lemma first_named_None k methods :
  (forall n, n ∈ methods -> _to_internal_name n <> k) -> first_named k methods = None.
Proof.
  intros H. unfold first_named.
  destruct (List.find _ methods) as [n|] eqn:Hf; [|done].
  apply first_named_Some in Hf as [Hin Hk]. by destruct (H n Hin).
Qed.

(** a name is the first with its local name when no earlier one has it *)
Lemma first_named_at methods i n :
  methods !! i = Some n ->
  (forall j n', j < i -> methods !! j = Some n' ->
                _to_internal_name n' <> _to_internal_name n) ->
  first_named (_to_internal_name n) methods = Some n.
Proof.
  revert i. induction methods as [|x methods IH]; intros i Hi Hfirst; [done|].
  unfold first_named. cbn [List.find].
  destruct i as [|i].
  - injection Hi as ->. by rewrite bool_decide_eq_true_2.
  - rewrite bool_decide_eq_false_2 by (apply (Hfirst 0 x); [lia | done]).
    apply (IH i); [done|]. intros j n' Hj Hn'. apply (Hfirst (S j) n'); [lia | done].
Qed.

(** every descriptor of the catalog is a [new_descriptor] *)
Lemma catalog_descriptors methods k d :
  fold_left add_method methods ∅ !! k = Some d ->
  d = new_descriptor (NAME d) /\ NAME d ∈ methods /\ _to_internal_name (NAME d) = k.
Proof.
  rewrite catalog_lookup. destruct (first_named k methods) as [n|] eqn:Hn; [|done].
  intros [= <-]. apply first_named_Some in Hn. done.
Qed.

End Catalog.

(** ** Running the methods *)

Section Runs.

Context {World Proxy : Type} (tp : transport World Proxy).

Implicit Types (m : machine World Proxy) (e : exn).

Lemma connect_run m a :
  _address (self m) = Some a ->
  _connect tp m
  = match ServerProxy tp a (world m) with
    | (Return p, w) => (Return tt, with_state m w (set_proxy p (self m)))
    | (Raise e, w) => (Raise e, with_state m w (self m))
    end.
Proof.
  intros Ha. unfold _connect, bind, get, remote, set. rewrite Ha.
  by destruct (ServerProxy tp a (world m)) as [[p|e] w].
Qed.

Lemma init_methods_run m p :
  proxy (self m) = Some p ->
  _init_methods tp m
  = match system_listMethods tp p (world m) with
    | (Return methods, w) =>
        (Return tt, with_state m w (set_methods (fold_left add_method methods ∅) (self m)))
    | (Raise e, w) => (Raise e, with_state m w (set_methods ∅ (self m)))
    end.
Proof.
  intros Hp. unfold _init_methods, bind, get, remote, set. cbn. rewrite Hp. cbn.
  by destruct (system_listMethods tp p (world m)) as [[methods|e] w].
Qed.

Lemma initialize_ready m :
  _initialized (self m) = true -> _initialize tp m = (Return tt, m).
Proof.
  intros Hi. unfold _initialize, bind, initialized, get. by rewrite Hi.
Qed.

Lemma initialize_api_run m a :
  _address (self m) = Some a ->
  _initialize_api tp m
  = match ServerProxy tp a (world m) with
    | (Return p, w1) =>
        match system_listMethods tp p w1 with
        | (Return methods, w2) =>
            (Return tt,
             with_state m w2
               (set_methods (fold_left add_method methods ∅) (set_proxy p (self m))))
        | (Raise e, w2) =>
            (Raise e, with_state m w2 (set_methods ∅ (set_proxy p (self m))))
        end
    | (Raise e, w1) => (Raise e, with_state m w1 (self m))
    end.
Proof.
  intros Ha. unfold _initialize_api, bind. rewrite (connect_run m a Ha).
  destruct (ServerProxy tp a (world m)) as [[p|e] w1]; [|done].
  rewrite (init_methods_run _ p) by done. cbn [world with_state].
  by destruct (system_listMethods tp p w1) as [[methods|e] w2].
Qed.

Lemma initialize_unready m :
  _initialized (self m) = false ->
  _initialize tp m
  = match _initialize_api tp (with_state m (world m) (cleared (self m))) with
    | (Return _, m') =>
        (Return tt, with_state m' (world m') (set_initialized true (self m')))
    | (Raise e, m') => (Raise e, with_state m' (world m') (failed e (self m')))
    end.
Proof.
  intros Hi. unfold _initialize, bind, initialized, get, try_except, set, raise.
  rewrite Hi. cbn [self world stdout]. unfold with_state, cleared.
  by destruct (_initialize_api tp _) as [[[]|e] m'].
Qed.

Lemma initialize_connect_fails m a e w :
  _initialized (self m) = false ->
  _address (self m) = Some a ->
  ServerProxy tp a (world m) = (Raise e, w) ->
  _initialize tp m = (Raise e, with_state m w (failed e (cleared (self m)))).
Proof.
  intros Hi Ha Hc. rewrite initialize_unready by done.
  rewrite (initialize_api_run _ a) by done. cbn [world with_state].
  by rewrite Hc.
Qed.

Lemma initialize_listing_fails m a p w1 e w2 :
  _initialized (self m) = false ->
  _address (self m) = Some a ->
  ServerProxy tp a (world m) = (Return p, w1) ->
  system_listMethods tp p w1 = (Raise e, w2) ->
  _initialize tp m
  = (Raise e,
     with_state m w2 (failed e (set_methods ∅ (set_proxy p (cleared (self m)))))).
Proof.
  intros Hi Ha Hc Hl. rewrite initialize_unready by done.
  rewrite (initialize_api_run _ a) by done. cbn [world with_state].
  by rewrite Hc, Hl.
Qed.

Lemma initialize_succeeds m a p w1 methods w2 :
  _initialized (self m) = false ->
  _address (self m) = Some a ->
  ServerProxy tp a (world m) = (Return p, w1) ->
  system_listMethods tp p w1 = (Return methods, w2) ->
  _initialize tp m
  = (Return tt,
     with_state m w2
       (set_initialized true
          (set_methods (fold_left add_method methods ∅)
             (set_proxy p (cleared (self m)))))).
Proof.
  intros Hi Ha Hc Hl. rewrite initialize_unready by done.
  rewrite (initialize_api_run _ a) by done. cbn [world with_state].
  by rewrite Hc, Hl.
Qed.

(** *** Calls *)

Lemma do_call_resolved m name args d p :
  _methods (self m) !! name = Some d ->
  proxy (self m) = Some p ->
  _do_call tp name args m
  = match remote_call tp p (NAME d) args (world m) with
    | (Return v, w) => (Return v, with_state m w (self m))
    | (Raise e, w) => (Raise (surfaced (address (self m)) name e), with_state m w (self m))
    end.
Proof.
  intros Hd Hp. unfold _do_call, _get_method, bind, get, try_except, remote, ret.
  rewrite Hd, Hp. cbn [self world stdout].
  destruct (remote_call tp p (NAME d) args (world m)) as [[v|e] w]; [done|].
  by destruct e.
Qed.

Lemma do_call_unknown m name args :
  _methods (self m) !! name = None ->
  _do_call tp name args m = (Raise (method_not_found name), m).
Proof.
  intros Hd. unfold _do_call, _get_method, bind, get. by rewrite Hd.
Qed.

Lemma invoke_run m name args :
  invoke tp name args m
  = match _initialize tp m with
    | (Return _, m') => _do_call tp name args m'
    | (Raise e, m') => (Raise e, m')
    end.
Proof.
  unfold invoke, __getattr__, _call, bind, ret.
  by destruct (_initialize tp m) as [[[]|e] m'].
Qed.

Lemma getattr_run m name :
  (__getattr__ tp name m).2 = (_initialize tp m).2 /\
  match (_initialize tp m).1 with
  | Return _ => exists f, (__getattr__ tp name m).1 = Return f
  | Raise e => (__getattr__ tp name m).1 = Raise e
  end.
Proof.
  unfold __getattr__, bind, ret.
  destruct (_initialize tp m) as [[[]|e] m']; cbn; eauto.
Qed.

(** *** The listing *)

Lemma for_each_write {A} (g : A -> string) (l : list A) :
  forall m,
    for_each l (fun x => write (g x)) m
    = (Return tt, {| world := world m; self := self m; stdout := stdout m ++ map g l |}).
Proof.
  induction l as [|x l IH]; intros m; cbn [for_each map].
  - unfold ret. rewrite app_nil_r. by destruct m.
  - unfold bind, write at 1. rewrite IH. cbn [world self stdout].
    by rewrite <- app_assoc.
Qed.

Lemma print_methods_run m :
  print_methods tp m
  = match _initialize tp m with
    | (Return _, m') =>
        (Return tt,
         {| world := world m'; self := self m';
            stdout := stdout m'
                      ++ line_format "Method" "Description"
                      :: map (fun item => line_format (call_txt item) (INFO item.2))
                           (sorted_items (_methods (self m'))) |})
    | (Raise e, m') => (Raise e, m')
    end.
Proof.
  unfold print_methods, bind.
  destruct (_initialize tp m) as [[[]|e] m']; [|done].
  unfold write at 1, get. cbn [world self stdout].
  rewrite for_each_write. cbn [world self stdout].
  by rewrite <- app_assoc.
Qed.

End Runs.

Section Listing.

Lemma elem_of_sorted_items ms k d : (k, d) ∈ sorted_items ms <-> ms !! k = Some d.
Proof.
  unfold sorted_items. rewrite merge_sort_Permutation. apply elem_of_map_to_list.
Qed.

(** the items are listed in the order of their keys *)
Lemma sorted_items_sorted ms : Sorted item_le (sorted_items ms).
Proof.
  apply Sorted_merge_sort. intros x y. apply String.leb_total.
Qed.

(** the line of a descriptor that [_init_methods] built *)
Lemma line_of_new_descriptor k n :
  line_format (call_txt (k, new_descriptor n)) (INFO (new_descriptor n))
  = line_format ("API." +:+ k +:+ "()") "".
Proof. reflexivity. Qed.

Lemma app_assoc_string (s1 s2 s3 : string) : (s1 +:+ s2) +:+ s3 = s1 +:+ s2 +:+ s3.
Proof. induction s1 as [|c s1 IH]; [done|]. rewrite !app_cons. by f_equal. Qed.

(** a message names what it quotes *)
Lemma contains_quoted l s r : Py.contains s (l +:+ Py.quoted s +:+ r) = true.
Proof.
  unfold Py.quoted.
  replace (l +:+ String "034" (s +:+ String "034" "") +:+ r)
    with ((l +:+ String "034" "") +:+ s +:+ String "034" r).
  - apply contains_middle.
  - rewrite !app_assoc_string, !app_cons, !app_assoc_string. reflexivity.
Qed.

End Listing.

(** ** Initialization attempts *)

Section Attempts.

Context {World Proxy : Type} (tp : transport World Proxy).

Implicit Types (m : machine World Proxy) (e : exn) (w : World).

Lemma initialize_fails m a e w' :
  _initialized (self m) = false ->
  _address (self m) = Some a ->
  init_fails tp a (world m) e w' ->
  exists o,
    _initialize tp m = (Raise e, with_state m w' o)
    /\ _initialized o = false /\ _fail_exc o = Some e /\ _address o = Some a.
Proof.
  intros Hi Ha [Hc | (p & w1 & Hc & Hl)].
  - rewrite (initialize_connect_fails tp m a e w') by done. eauto.
  - rewrite (initialize_listing_fails tp m a p w1 e w') by done. eauto.
Qed.

Lemma initialize_ok m a p methods w' :
  _initialized (self m) = false ->
  _address (self m) = Some a ->
  init_succeeds tp a (world m) p methods w' ->
  exists o,
    _initialize tp m = (Return tt, with_state m w' o)
    /\ _initialized o = true /\ _fail_exc o = None /\ _address o = Some a
    /\ proxy o = Some p /\ _methods o = fold_left add_method methods ∅.
Proof.
  intros Hi Ha (w1 & Hc & Hl).
  rewrite (initialize_succeeds tp m a p w1 methods w') by done.
  eexists. split; [done|]. by repeat split.
Qed.

End Attempts.

(** ** The catalog built by [_init_methods] *)

(** C4: the remote names are handled in the order of the listing; a local
    identifier is bound to the descriptor of the first remote name that
    translates to it, and a later remote name with the same translation is
    dropped, with no error. *)
Theorem catalog_first_wins {World Proxy} (tp : transport World Proxy)
    (m : machine World Proxy) (p : Proxy) (methods : list string) (w : World) :
  proxy (self m) = Some p ->
  system_listMethods tp p (world m) = (Return methods, w) ->
  let m' := (_init_methods tp m).2 in
  (_init_methods tp m).1 = Return tt
  /\ (forall k, _methods (self m') !! k = new_descriptor <$> first_named k methods)
  /\ (forall i j n1 n2,
        methods !! i = Some n1 -> methods !! j = Some n2 -> n1 <> n2 ->
        _to_internal_name n1 = _to_internal_name n2 ->
        (forall i' n', i' < i -> methods !! i' = Some n' ->
                       _to_internal_name n' <> _to_internal_name n1) ->
        i < j
        /\ _methods (self m') !! _to_internal_name n2 = Some (new_descriptor n1)).
Proof.
  intros Hp Hl. rewrite (init_methods_run tp m p Hp), Hl.
  cbn [fst snd self with_state set_methods _methods].
  split; [done|]. split; [apply catalog_lookup|].
  intros i j n1 n2 Hi Hj Hne Heq Hfirst. split.
  - destruct (decide (i < j)) as [|Hge]; [done|]. exfalso.
    destruct (decide (j = i)) as [->|Hji]; [congruence|].
    apply (Hfirst j n2); [lia | done | done].
  - rewrite catalog_lookup, <- Heq. by rewrite (first_named_at methods i n1).
Qed.

(** On the scripted CCU [Foo.Bar] is listed before [foo.bar]: the catalog
    keeps the first. *)
Lemma catalog_first_wins_witness :
  proxy (self (Sim.connected (Sim.up []))) = Some Sim.uri
  /\ system_listMethods Sim.tp Sim.uri (world (Sim.connected (Sim.up [])))
     = (Return Sim.names, Sim.up [])
  /\ (_init_methods Sim.tp (Sim.connected (Sim.up []))).1 = Return tt
  /\ _methods (self (_init_methods Sim.tp (Sim.connected (Sim.up []))).2)
       !! _to_internal_name "foo.bar"
     = Some (new_descriptor "Foo.Bar").
Proof.
  assert (proxy (self (Sim.connected (Sim.up []))) = Some Sim.uri) as Hp
    by reflexivity.
  assert (system_listMethods Sim.tp Sim.uri (world (Sim.connected (Sim.up [])))
          = (Return Sim.names, Sim.up [])) as Hl by reflexivity.
  pose proof (catalog_first_wins Sim.tp _ _ _ _ Hp Hl) as H. cbv zeta in H.
  destruct H as (Hr & _ & Hc).
  split; [exact Hp|]. split; [exact Hl|]. split; [exact Hr|].
  destruct (Hc 1 2 "Foo.Bar" "foo.bar") as [_ H]; [ | | | | | exact H].
  - reflexivity.
  - reflexivity.
  - discriminate.
  - vm_compute. reflexivity.
  - intros i' n' Hlt Hn'. destruct i' as [|i']; [|lia].
    injection Hn' as <-. vm_compute. discriminate.
Defined.

(** ** The error mapping of [_do_call] *)

(** C5, as stated, fails: a connection-level fault that the XML-RPC library
    raises as a [socket.error], such as an unreachable host, is no
    [ProtocolError]; the call of a resolved name does not fail with the
    connection error of the client then, the [socket.error] reaches the
    caller. *)
Lemma unreachable_host_is_no_connection_error :
  _methods
    (self (Sim.ready
             (Sim.up [Raise (OtherError "socket.error" "[Errno 113] No route to host")])))
    !! "ccu_get_serial"
  = Some (new_descriptor "CCU.getSerial")
  /\ (_call Sim.tp "ccu_get_serial" []
        (Sim.ready
           (Sim.up [Raise (OtherError "socket.error" "[Errno 113] No route to host")]))).1
     = Raise (OtherError "socket.error" "[Errno 113] No route to host")
  /\ match (_call Sim.tp "ccu_get_serial" []
              (Sim.ready
                 (Sim.up [Raise (OtherError "socket.error"
                                   "[Errno 113] No route to host")]))).1
     with
     | Raise (PMConnectionError _) => False
     | _ => True
     end.
Proof. vm_compute. repeat split. Qed.

(** C5, amended: when the call of the remote method of a resolved name
    raises the library's [ProtocolError], the call fails with the
    connection error of the client ([PMConnectionError]) and its message
    holds the address of the object; when it raises a [Fault], the call
    fails with a [PMException] whose message holds the requested local
    identifier; a fault of another class, such as the [socket.error] of a
    connection that cannot be made, is not mapped and reaches the caller
    as it is. *)
Theorem call_error_mapping {World Proxy} (tp : transport World Proxy)
    (m : machine World Proxy) (name : string) (args : list utils.pyobj)
    (d : descriptor) (p : Proxy) (a detail cls : string) (w : World) :
  _methods (self m) !! name = Some d ->
  proxy (self m) = Some p ->
  address (self m) = Some a ->
  (remote_call tp p (NAME d) args (world m) = (Raise (ProtocolError detail), w) ->
   exists msg,
     (_call tp name args m).1 = Raise (PMConnectionError msg)
     /\ msg = "Unable to open " +:+ Py.quoted a +:+ ": " +:+ detail
     /\ Py.contains a msg = true)
  /\ (remote_call tp p (NAME d) args (world m) = (Raise (Fault detail), w) ->
      exists msg,
        (_call tp name args m).1 = Raise (PMException msg)
        /\ msg = "Server error calling " +:+ Py.quoted name +:+ ": " +:+ detail
        /\ Py.contains name msg = true)
  /\ (remote_call tp p (NAME d) args (world m) = (Raise (OtherError cls detail), w) ->
      (_call tp name args m).1 = Raise (OtherError cls detail)).
Proof.
  intros Hd Hp Ha. unfold _call. rewrite (do_call_resolved tp m name args d p Hd Hp).
  split; [|split]; intros ->; cbn; rewrite ?Ha; [| |done];
    eexists; (split; [done|]); (split; [done|]); apply contains_quoted.
Qed.

(** On the scripted CCU, a call answered by a [ProtocolError], one
    answered by a [Fault] and one that ends in a [socket.error]. *)
Lemma call_error_mapping_witness :
  (_call Sim.tp "ccu_get_serial" []
     (Sim.ready (Sim.up [Raise (ProtocolError "<ProtocolError for 192.168.1.26:2001/RPC2: 503 Service Unavailable>")]))).1
  = Raise (PMConnectionError
             ("Unable to open " +:+ Py.quoted Sim.uri
              +:+ ": <ProtocolError for 192.168.1.26:2001/RPC2: 503 Service Unavailable>"))
  /\ (_call Sim.tp "ccu_get_serial" []
        (Sim.ready (Sim.up [Raise (Fault "<Fault -1: 'failed'>")]))).1
     = Raise (PMException
                ("Server error calling " +:+ Py.quoted "ccu_get_serial"
                 +:+ ": <Fault -1: 'failed'>"))
  /\ (_call Sim.tp "ccu_get_serial" []
        (Sim.ready (Sim.up [Raise (OtherError "socket.error" "timed out")]))).1
     = Raise (OtherError "socket.error" "timed out").
Proof.
  split; [|split].
  - destruct (proj1 (call_error_mapping Sim.tp
                       (Sim.ready (Sim.up [Raise (ProtocolError "<ProtocolError for 192.168.1.26:2001/RPC2: 503 Service Unavailable>")]))
                       "ccu_get_serial" [] (new_descriptor "CCU.getSerial") Sim.uri Sim.uri
                       "<ProtocolError for 192.168.1.26:2001/RPC2: 503 Service Unavailable>"
                       "socket.error"
                       {| Sim.refusals := 0; Sim.listing := Sim.names; Sim.replies := [];
                          Sim.requests := [("CCU.getSerial", [])] |}
                       ltac:(vm_compute; reflexivity) ltac:(reflexivity) ltac:(reflexivity))
                ltac:(vm_compute; reflexivity)) as (msg & Hr & -> & _).
    exact Hr.
  - destruct (proj1 (proj2 (call_error_mapping Sim.tp
                       (Sim.ready (Sim.up [Raise (Fault "<Fault -1: 'failed'>")]))
                       "ccu_get_serial" [] (new_descriptor "CCU.getSerial") Sim.uri Sim.uri
                       "<Fault -1: 'failed'>" "socket.error"
                       {| Sim.refusals := 0; Sim.listing := Sim.names; Sim.replies := [];
                          Sim.requests := [("CCU.getSerial", [])] |}
                       ltac:(vm_compute; reflexivity) ltac:(reflexivity) ltac:(reflexivity)))
                ltac:(vm_compute; reflexivity)) as (msg & Hr & -> & _).
    exact Hr.
  - apply (proj2 (proj2 (call_error_mapping Sim.tp
                       (Sim.ready (Sim.up [Raise (OtherError "socket.error" "timed out")]))
                       "ccu_get_serial" [] (new_descriptor "CCU.getSerial") Sim.uri Sim.uri
                       "timed out" "socket.error"
                       {| Sim.refusals := 0; Sim.listing := Sim.names; Sim.replies := [];
                          Sim.requests := [("CCU.getSerial", [])] |}
                       ltac:(vm_compute; reflexivity) ltac:(reflexivity) ltac:(reflexivity)))).
    vm_compute. reflexivity.
Defined.

(** C6, as stated, fails: [_do_call] has handlers for [ProtocolError] and
    [Fault] only; the [socket.error] of a CCU that refuses the connection
    during the call of a resolved name reaches the caller as it is, and it
    is no [PMException]. *)
Lemma raw_socket_error_passes_through :
  _initialized (self (Sim.ready (Sim.up [Raise Sim.refused]))) = true
  /\ _methods (self (Sim.ready (Sim.up [Raise Sim.refused]))) !! "ccu_get_serial"
     = Some (new_descriptor "CCU.getSerial")
  /\ (_call Sim.tp "ccu_get_serial" [] (Sim.ready (Sim.up [Raise Sim.refused]))).1
     = Raise (OtherError "socket.error" "[Errno 111] Connection refused")
  /\ is_PMException (OtherError "socket.error" "[Errno 111] Connection refused") = false.
Proof. vm_compute. repeat split. Qed.

(** C6, amended: a [ProtocolError] or a [Fault] raised by the call of the
    remote method of a resolved name is translated, to [PMConnectionError]
    and to [PMException]; any other exception raised there reaches the
    caller as it is. *)
Theorem call_error_translation {World Proxy} (tp : transport World Proxy)
    (m : machine World Proxy) (name : string) (args : list utils.pyobj)
    (d : descriptor) (p : Proxy) (e : exn) (w : World) :
  _methods (self m) !! name = Some d ->
  proxy (self m) = Some p ->
  remote_call tp p (NAME d) args (world m) = (Raise e, w) ->
  match e with
  | ProtocolError detail =>
      (_call tp name args m).1
      = Raise (PMConnectionError
                 ("Unable to open " +:+ Py.quoted (str (address (self m)))
                  +:+ ": " +:+ detail))
  | Fault detail =>
      (_call tp name args m).1
      = Raise (PMException
                 ("Server error calling " +:+ Py.quoted name +:+ ": " +:+ detail))
  | _ => (_call tp name args m).1 = Raise e
  end.
Proof.
  intros Hd Hp Hr. unfold _call.
  rewrite (do_call_resolved tp m name args d p Hd Hp), Hr.
  by destruct e.
Qed.

(** On the scripted CCU, a call that ends in a [socket.error]. *)
Lemma call_error_translation_witness :
  _methods (self (Sim.ready (Sim.up [Raise Sim.refused]))) !! "ccu_get_serial"
  = Some (new_descriptor "CCU.getSerial")
  /\ proxy (self (Sim.ready (Sim.up [Raise Sim.refused]))) = Some Sim.uri
  /\ (_call Sim.tp "ccu_get_serial" [] (Sim.ready (Sim.up [Raise Sim.refused]))).1
     = Raise Sim.refused.
Proof.
  assert (_methods (self (Sim.ready (Sim.up [Raise Sim.refused]))) !! "ccu_get_serial"
          = Some (new_descriptor "CCU.getSerial")) as Hd by (vm_compute; reflexivity).
  assert (proxy (self (Sim.ready (Sim.up [Raise Sim.refused]))) = Some Sim.uri) as Hp
    by reflexivity.
  split; [exact Hd|]. split; [exact Hp|].
  apply (call_error_translation Sim.tp _ "ccu_get_serial" [] _ _ Sim.refused
           {| Sim.refusals := 0; Sim.listing := Sim.names; Sim.replies := [];
              Sim.requests := [("CCU.getSerial", [])] |} Hd Hp).
  vm_compute. reflexivity.
Defined.

(** ** Failed initialization *)

(** C7: when the connect or the listing of an initialization attempt fails,
    the failure is raised to the caller, [initialized] is false and
    [fail_reason] is that failure; the next attribute lookup runs the whole
    initialization again: when it succeeds the object is initialized and the
    recorded failure is gone, when it fails the new failure is recorded. *)
Theorem failed_initialization_retried {World Proxy} (tp : transport World Proxy)
    (m : machine World Proxy) (a name : string) (e : exn) (w' : World) :
  _initialized (self m) = false ->
  _address (self m) = Some a ->
  init_fails tp a (world m) e w' ->
  let m' := (_initialize tp m).2 in
  (_initialize tp m).1 = Raise e
  /\ (initialized m').1 = Return false
  /\ (fail_reason m').1 = Return (Some e)
  /\ world m' = w'
  /\ (forall p methods w'',
        init_succeeds tp a w' p methods w'' ->
        let m'' := (__getattr__ tp name m').2 in
        (exists f, (__getattr__ tp name m').1 = Return f)
        /\ _initialized (self m'') = true
        /\ _fail_exc (self m'') = None
        /\ _methods (self m'') = fold_left add_method methods ∅
        /\ world m'' = w'')
  /\ (forall e2 w'',
        init_fails tp a w' e2 w'' ->
        let m'' := (__getattr__ tp name m').2 in
        (__getattr__ tp name m').1 = Raise e2
        /\ _initialized (self m'') = false
        /\ _fail_exc (self m'') = Some e2
        /\ world m'' = w'').
Proof.
  intros Hi Ha Hf.
  destruct (initialize_fails tp m a e w' Hi Ha Hf) as (o & -> & Hio & Heo & Hao).
  cbn [fst snd]. unfold initialized, fail_reason, get.
  cbn [fst self world with_state]. rewrite Hio, Heo.
  repeat (split; [done|]). split.
  - intros p methods w'' Hs.
    destruct (getattr_run tp (with_state m w' o) name) as [-> Hr].
    destruct (initialize_ok tp (with_state m w' o) a p methods w'')
      as (o' & Hrun & ? & ? & ? & ? & ?); [done..|].
    rewrite Hrun in Hr |- *. cbn [fst snd self world with_state] in *. done.
  - intros e2 w'' Hf2.
    destruct (getattr_run tp (with_state m w' o) name) as [-> Hr].
    destruct (initialize_fails tp (with_state m w' o) a e2 w'')
      as (o' & Hrun & ? & ? & ?); [done..|].
    rewrite Hrun in Hr |- *. cbn [fst snd self world with_state] in *. done.
Qed.

(** On a CCU that refuses the first listing: the first attempt fails, the
    second one succeeds. *)
Lemma failed_initialization_retried_witness :
  _initialized (self (Sim.boot Sim.down_once)) = false
  /\ (_initialize Sim.tp (Sim.boot Sim.down_once)).1 = Raise Sim.refused
  /\ (fail_reason (_initialize Sim.tp (Sim.boot Sim.down_once)).2).1
     = Return (Some Sim.refused)
  /\ _initialized
       (self (__getattr__ Sim.tp "ccu_get_serial"
                (_initialize Sim.tp (Sim.boot Sim.down_once)).2).2) = true
  /\ _fail_exc
       (self (__getattr__ Sim.tp "ccu_get_serial"
                (_initialize Sim.tp (Sim.boot Sim.down_once)).2).2) = None.
Proof.
  pose proof (failed_initialization_retried Sim.tp (Sim.boot Sim.down_once)
                Sim.uri "ccu_get_serial" Sim.refused (Sim.up [])) as H.
  cbv zeta in H.
  destruct H as (Hr & _ & Hf & _ & Hnext & _).
  - reflexivity.
  - reflexivity.
  - right. exists Sim.uri, Sim.down_once. split; reflexivity.
  - destruct (Hnext Sim.uri Sim.names (Sim.up [])) as (_ & Hi & He & _).
    + exists (Sim.up []). split; reflexivity.
    + split; [reflexivity|]. split; [exact Hr|]. split; [exact Hf|].
      split; [exact Hi | exact He].
Defined.

(** ** Unknown local identifiers *)

(** C8: the call of a local identifier that the catalog does not hold fails
    with the [PMException] that names the identifier; the catalog is looked
    up only after the initialization: on an object that is not initialized
    the attempt is made first, its failure is what the caller gets, and
    after its success the lookup is made in the catalog just built. *)
Theorem unknown_method {World Proxy} (tp : transport World Proxy)
    (m : machine World Proxy) (a name : string) (args : list utils.pyobj) :
  _address (self m) = Some a ->
  let msg := "Method " +:+ Py.quoted name +:+ " is not a valid method." in
  Py.contains name msg = true
  /\ (_initialized (self m) = true ->
      _methods (self m) !! name = None ->
      invoke tp name args m = (Raise (PMException msg), m))
  /\ (_initialized (self m) = false ->
      forall e w', init_fails tp a (world m) e w' ->
        (invoke tp name args m).1 = Raise e
        /\ world (invoke tp name args m).2 = w')
  /\ (_initialized (self m) = false ->
      forall p methods w', init_succeeds tp a (world m) p methods w' ->
        (forall n, n ∈ methods -> _to_internal_name n <> name) ->
        (invoke tp name args m).1 = Raise (PMException msg)
        /\ world (invoke tp name args m).2 = w'
        /\ _initialized (self (invoke tp name args m).2) = true).
Proof.
  intros Ha msg. split; [apply contains_quoted|]. split; [|split].
  - intros Hi Hk. rewrite invoke_run, initialize_ready by done.
    by apply do_call_unknown.
  - intros Hi e w' Hf. rewrite invoke_run.
    destruct (initialize_fails tp m a e w' Hi Ha Hf) as (o & -> & _). done.
  - intros Hi p methods w' Hs Hnone. rewrite invoke_run.
    destruct (initialize_ok tp m a p methods w' Hi Ha Hs)
      as (o & -> & Hio & _ & _ & _ & Hms).
    rewrite do_call_unknown.
    + done.
    + cbn [self with_state]. rewrite Hms, catalog_lookup.
      by rewrite first_named_None.
Qed.

(** On the scripted CCU, a name that no listed method translates to. *)
Lemma unknown_method_witness :
  _address (self (Sim.boot (Sim.up []))) = Some Sim.uri
  /\ (invoke Sim.tp "ccu_get_serial_number" [] (Sim.boot (Sim.up []))).1
     = Raise (PMException
                ("Method " +:+ Py.quoted "ccu_get_serial_number"
                 +:+ " is not a valid method."))
  /\ _initialized
       (self (invoke Sim.tp "ccu_get_serial_number" [] (Sim.boot (Sim.up []))).2) = true
  /\ (invoke Sim.tp "ccu_get_serial_number" [] (Sim.boot Sim.down_once)).1
     = Raise Sim.refused.
Proof.
  split; [reflexivity|].
  pose proof (unknown_method Sim.tp (Sim.boot (Sim.up [])) Sim.uri
                "ccu_get_serial_number" [] eq_refl) as H.
  cbv zeta in H. destruct H as (_ & _ & _ & Hok).
  destruct (Hok eq_refl Sim.uri Sim.names (Sim.up [])) as (Hr & _ & Hi).
  - exists (Sim.up []). split; reflexivity.
  - intros n Hn.
    repeat (apply elem_of_cons in Hn as [-> | Hn]; [vm_compute; discriminate|]).
    by apply elem_of_nil in Hn.
  - split; [exact Hr|]. split; [exact Hi|].
    pose proof (unknown_method Sim.tp (Sim.boot Sim.down_once) Sim.uri
                  "ccu_get_serial_number" [] eq_refl) as H.
    cbv zeta in H. destruct H as (_ & _ & Hfail & _).
    apply (Hfail eq_refl Sim.refused (Sim.up [])).
    right. exists Sim.uri, Sim.down_once. split; reflexivity.
Defined.

(** ** The catalog after a failed listing *)

(** C9: [_init_methods] clears the catalog before it asks for the listing;
    when the listing fails during an initialization attempt, the catalog is
    left empty, whatever it held before, and [initialized] stays false. *)
Theorem listing_failure_empties_catalog {World Proxy} (tp : transport World Proxy)
    (m : machine World Proxy) (a : string) (p : Proxy) (w1 w2 : World) (e : exn) :
  _initialized (self m) = false ->
  _address (self m) = Some a ->
  ServerProxy tp a (world m) = (Return p, w1) ->
  system_listMethods tp p w1 = (Raise e, w2) ->
  let m' := (_initialize tp m).2 in
  (_initialize tp m).1 = Raise e
  /\ _methods (self m') = ∅
  /\ _initialized (self m') = false
  /\ _fail_exc (self m') = Some e.
Proof.
  intros Hi Ha Hc Hl.
  by rewrite (initialize_listing_fails tp m a p w1 e w2).
Qed.

(** On an object that holds a descriptor, facing a CCU that refuses the
    listing. *)
Lemma listing_failure_empties_catalog_witness :
  _methods (self (Sim.stale Sim.down_once)) !! "old_method"
  = Some (new_descriptor "Old.method")
  /\ _initialized (self (Sim.stale Sim.down_once)) = false
  /\ (_initialize Sim.tp (Sim.stale Sim.down_once)).1 = Raise Sim.refused
  /\ _methods (self (_initialize Sim.tp (Sim.stale Sim.down_once)).2) = ∅
  /\ _initialized (self (_initialize Sim.tp (Sim.stale Sim.down_once)).2) = false.
Proof.
  split; [vm_compute; reflexivity|]. split; [reflexivity|].
  pose proof (listing_failure_empties_catalog Sim.tp (Sim.stale Sim.down_once)
                Sim.uri Sim.uri Sim.down_once (Sim.up []) Sim.refused) as H.
  cbv zeta in H.
  destruct H as (Hr & Hm & Hi & _); [reflexivity..|].
  split; [exact Hr|]. split; [exact Hm | exact Hi].
Defined.

(** ** The descriptors and their listing *)

(** C10: after a successful initialization every descriptor of the catalog
    holds the remote name only: its description is the empty string and
    its two argument lists are empty; [print_methods] then writes, after
    the heading, one line per local identifier, in the order of the
    identifiers, with no argument between the parentheses and nothing as
    description. *)
Theorem descriptors_hold_only_the_name {World Proxy} (tp : transport World Proxy)
    (m : machine World Proxy) (a : string) (p : Proxy) (methods : list string)
    (w' : World) :
  _initialized (self m) = false ->
  _address (self m) = Some a ->
  init_succeeds tp a (world m) p methods w' ->
  let m' := (print_methods tp m).2 in
  (print_methods tp m).1 = Return tt
  /\ (forall k d,
        _methods (self m') !! k = Some d ->
        INFO d = "" /\ ARGUMENTS d = [] /\ INT_ARGUMENTS d = []
        /\ NAME d ∈ methods /\ _to_internal_name (NAME d) = k)
  /\ stdout m'
     = (stdout m
        ++ line_format "Method" "Description"
        :: map (fun item => line_format ("API." +:+ item.1 +:+ "()") "")
             (sorted_items (_methods (self m'))))%list
  /\ Sorted item_le (sorted_items (_methods (self m'))).
Proof.
  intros Hi Ha Hs. rewrite print_methods_run.
  destruct (initialize_ok tp m a p methods w' Hi Ha Hs)
    as (o & -> & _ & _ & _ & _ & Hms).
  cbn [fst snd self world stdout with_state]. rewrite Hms.
  split; [done|]. split; [|split; [|apply sorted_items_sorted]].
  - intros k d Hd. apply catalog_descriptors in Hd as (-> & ? & ?). done.
  - do 2 f_equal. apply map_ext_in. intros [k d] Hin.
    apply list_elem_of_In, elem_of_sorted_items, catalog_descriptors in Hin as (-> & _).
    apply line_of_new_descriptor.
Qed.

(** The listing written for the scripted CCU. *)
Lemma descriptors_hold_only_the_name_witness :
  _initialized (self (Sim.boot (Sim.up []))) = false
  /\ stdout (print_methods Sim.tp (Sim.boot (Sim.up []))).2
     = line_format "Method" "Description"
       :: map (fun k => line_format ("API." +:+ k +:+ "()") "")
            ["ccu_get_serial"; "foo_bar"; "system_list_methods"].
Proof.
  split; [reflexivity|].
  pose proof (descriptors_hold_only_the_name Sim.tp (Sim.boot (Sim.up []))
                Sim.uri Sim.uri Sim.names (Sim.up [])) as H.
  cbv zeta in H.
  destruct H as (_ & _ & -> & _).
  - reflexivity.
  - reflexivity.
  - exists (Sim.up []). split; reflexivity.
  - vm_compute. reflexivity.
Defined.

(** * Further properties *)

(** ** Construction *)

Lemma normalize_unfold s :
  normalize s
  = Some (if negb (Py.startswith s "https://") && negb (Py.startswith s "http://")
          then "http://" +:+ s +:+ ":2001"
          else s +:+ ":2001").
Proof. reflexivity. Qed.

Lemma init_address {Proxy} s o :
  @__init__ Proxy (utils.PyStr s) = Return o ->
  _address o = normalize s /\ _initialized o = false /\ _fail_exc o = None
  /\ _methods o = ∅ /\ proxy o = None.
Proof. unfold __init__, _set_address. cbn. intros [= <-]. done. Qed.

Lemma init_not_string {Proxy} v :
  utils.is_string v = false ->
  @__init__ Proxy v = Raise (PMException "Please specify the address of the CCU.").
Proof. intros H. unfold __init__, _set_address. by rewrite H. Qed.

(** X1: [init] gives an object exactly when there is no keyword [self]
    and the keyword [address] is there and is a string; the object then
    holds the normalized address, is not initialized, has no recorded
    failure, an empty catalog and no proxy.  Otherwise [init] raises a
    [PMException]: the one about the missing address, which quotes the
    [TypeError], when there is a keyword [self] or no keyword [address],
    and the one of [_set_address] when the address is no string. *)
Theorem init_outcomes {Proxy} (text_self text_missing : string) (mode : utils.pyobj)
    (kwargs : gmap string utils.pyobj) :
  match @init Proxy text_self text_missing mode kwargs with
  | Return o =>
      exists a,
        kwargs !! "self" = None
        /\ kwargs !! "address" = Some (utils.PyStr a)
        /\ _address o = normalize a /\ _initialized o = false /\ _fail_exc o = None
        /\ _methods o = ∅ /\ proxy o = None
  | Raise e =>
      (is_Some (kwargs !! "self")
       /\ e = PMException
                ("You need to provide at least the address to access your CCU via XML-RPC ("
                 +:+ text_self +:+ ")."))
      \/ (kwargs !! "self" = None /\ kwargs !! "address" = None
          /\ e = PMException
                   ("You need to provide at least the address to access your CCU via XML-RPC ("
                    +:+ text_missing +:+ ")."))
      \/ (exists v,
            kwargs !! "self" = None
            /\ kwargs !! "address" = Some v /\ utils.is_string v = false
            /\ e = PMException "Please specify the address of the CCU.")
  end.
Proof.
  unfold init, XMLAPI_new.
  destruct (kwargs !! "self") as [x|] eqn:Hself.
  { cbn. left. eauto. }
  destruct (kwargs !! "address") as [v|] eqn:Hk.
  - destruct (utils.is_string v) eqn:Hv.
    + destruct v; try discriminate.
      destruct (@__init__ Proxy (utils.PyStr s)) as [o|e] eqn:Ho.
      * exists s. split; [done|]. split; [done|]. by apply init_address.
      * unfold __init__, _set_address in Ho. cbn in Ho. discriminate.
    + rewrite (init_not_string v Hv). right. right. by exists v.
  - cbn. right. by left.
Qed.

(** X2: the address that a constructed object holds always starts with
    [http://] or [https://] and always ends with [:2001], also when the
    address given already names a port. *)
Theorem address_has_scheme_and_port (a : string) :
  exists stored body,
    normalize a = Some stored
    /\ Py.startswith stored "http://" || Py.startswith stored "https://" = true
    /\ stored = body +:+ ":2001".
Proof.
  rewrite normalize_unfold.
  destruct (Py.startswith a "https://") eqn:Hs;
    [|destruct (Py.startswith a "http://") eqn:Hp]; cbn [negb andb].
  - eexists _, a. split; [done|]. split; [|done].
    apply startswith_iff in Hs as [r ->]. rewrite app_assoc_string.
    unfold Py.startswith at 2. rewrite prefix_app. apply orb_true_r.
  - eexists _, a. split; [done|]. split; [|done].
    apply startswith_iff in Hp as [r ->]. rewrite app_assoc_string.
    unfold Py.startswith at 1. by rewrite prefix_app.
  - eexists _, ("http://" +:+ a). split; [done|]. split.
    + unfold Py.startswith at 1. by rewrite prefix_app.
    + by rewrite app_assoc_string.
Qed.

(** ** What the operations leave alone *)

Section Frames.

Context {World Proxy : Type} (tp : transport World Proxy).

Implicit Types (m : machine World Proxy) (e : exn).

(** [_initialize] changes neither the address nor the output *)
Lemma initialize_frame m :
  _address (self (_initialize tp m).2) = _address (self m)
  /\ stdout (_initialize tp m).2 = stdout m.
Proof.
  unfold _initialize, _initialize_api, _connect, _init_methods, bind, try_except,
    initialized, get, set, remote, raise, ret.
  repeat case_match; simplify_eq/=; done.
Qed.

Lemma do_call_frame m name args :
  _address (self (_do_call tp name args m).2) = _address (self m)
  /\ stdout (_do_call tp name args m).2 = stdout m.
Proof.
  unfold _do_call, _get_method, bind, get, ret, raise.
  destruct (_methods (self m) !! name) as [d|]; [|done].
  destruct (proxy (self m)) as [p|].
  - unfold try_except, remote, raise.
    repeat case_match; simplify_eq/=; done.
  - pose proof (initialize_frame m) as [Ha Hs].
    destruct (_initialize tp m) as [[[]|e] m']; done.
Qed.

(** on an initialized object [_do_call] changes the world only *)
Lemma do_call_ready m name args :
  _initialized (self m) = true ->
  self (_do_call tp name args m).2 = self m
  /\ stdout (_do_call tp name args m).2 = stdout m.
Proof.
  intros Hi. unfold _do_call, _get_method, bind, get, ret, raise.
  destruct (_methods (self m) !! name) as [d|]; [|done].
  destruct (proxy (self m)) as [p|].
  - unfold try_except, remote, raise.
    repeat case_match; simplify_eq/=; done.
  - by rewrite initialize_ready.
Qed.

End Frames.

(** X3: once an object is initialized, no operation changes it: the
    catalog, the proxy, [initialized] and [fail_reason] stay as they are,
    also when a call fails; attribute lookups and [print_methods] leave the
    remote side alone, and only [print_methods] writes. *)
Theorem ready_object_unchanged {World Proxy} (tp : transport World Proxy)
    (m : machine World Proxy) (o : operation) :
  _initialized (self m) = true ->
  self (after tp o m) = self m
  /\ match o with
     | Getattr _ => world (after tp o m) = world m /\ stdout (after tp o m) = stdout m
     | PrintMethods => world (after tp o m) = world m
     | Invoke _ _ | Call _ _ => stdout (after tp o m) = stdout m
     end.
Proof.
  intros Hi. destruct o as [n|n args|n args|]; cbn [after].
  - destruct (getattr_run tp m n) as [-> _]. by rewrite initialize_ready.
  - rewrite invoke_run, initialize_ready by done. by apply do_call_ready.
  - unfold _call. by apply do_call_ready.
  - rewrite print_methods_run, initialize_ready by done. done.
Qed.

(** On the scripted CCU: a call that ends in a [Fault] on an initialized
    object. *)
Lemma ready_object_unchanged_witness :
  _initialized (self (Sim.ready (Sim.up [Raise (Fault "<Fault -1: 'failed'>")]))) = true
  /\ self (after Sim.tp (Invoke "ccu_get_serial" [])
             (Sim.ready (Sim.up [Raise (Fault "<Fault -1: 'failed'>")])))
     = self (Sim.ready (Sim.up [Raise (Fault "<Fault -1: 'failed'>")])).
Proof.
  split; [reflexivity|].
  apply (ready_object_unchanged Sim.tp
           (Sim.ready (Sim.up [Raise (Fault "<Fault -1: 'failed'>")]))
           (Invoke "ccu_get_serial" [])).
  reflexivity.
Defined.

(** X4: no operation changes the address of an object, in whatever state it
    is, and none but [print_methods] writes to the output. *)
Theorem address_never_changes {World Proxy} (tp : transport World Proxy)
    (m : machine World Proxy) (o : operation) :
  _address (self (after tp o m)) = _address (self m)
  /\ match o with
     | PrintMethods => exists lines, stdout (after tp o m) = (stdout m ++ lines)%list
     | _ => stdout (after tp o m) = stdout m
     end.
Proof.
  destruct o as [n|n args|n args|]; cbn [after].
  - destruct (getattr_run tp m n) as [-> _]. apply initialize_frame.
  - rewrite invoke_run. pose proof (initialize_frame tp m) as [Ha Hs].
    destruct (_initialize tp m) as [[[]|e] m']; [|done].
    cbn [snd] in Ha, Hs. rewrite <- Ha, <- Hs. apply do_call_frame.
  - unfold _call. apply do_call_frame.
  - rewrite print_methods_run. pose proof (initialize_frame tp m) as [Ha Hs].
    destruct (_initialize tp m) as [[[]|e] m']; cbn [snd self stdout] in *.
    + split; [done|]. rewrite Hs. eauto.
    + split; [done|]. exists []. by rewrite app_nil_r.
Qed.

(** ** The states that an object goes through *)

Section Reachable.

Context {World Proxy : Type} (tp : transport World Proxy).

Implicit Types (m : machine World Proxy) (e : exn).

Lemma new_consistent address (o : XMLAPI Proxy) :
  __init__ address = Return o -> consistent o.
Proof.
  intros Ho. destruct (utils.is_string address) eqn:Hs.
  - destruct address as [| | |s|]; try discriminate.
    apply init_address in Ho as (Ha & Hi & Hf & Hm & Hp).
    unfold consistent. rewrite Ha, Hi, Hm.
    split; [by exists s|]. split; [by rewrite normalize_unfold|].
    split; [done|]. split; [done|]. intros k d Hd. by rewrite lookup_empty in Hd.
  - by rewrite init_not_string in Ho.
Qed.

Lemma initialize_consistent m :
  consistent (self m) -> consistent (self (_initialize tp m).2).
Proof.
  intros (Hn & [a Ha] & Hready & Hproxy & Hdesc).
  destruct (_initialized (self m)) eqn:Hi.
  { rewrite initialize_ready by done. cbn [snd]. unfold consistent. eauto 10. }
  destruct (ServerProxy tp a (world m)) as [[p|e] w1] eqn:Hc.
  - destruct (system_listMethods tp p w1) as [[methods|e] w2] eqn:Hl.
    + rewrite (initialize_succeeds tp m a p w1 methods w2) by done.
      unfold consistent. cbn. rewrite Ha in *.
      split; [done|]. split; [eauto|]. split; [eauto|]. split; [eauto|].
      intros k d Hd. apply catalog_descriptors in Hd as (? & _ & ?). done.
    + rewrite (initialize_listing_fails tp m a p w1 e w2) by done.
      unfold consistent. cbn. rewrite Ha in *.
      split; [done|]. split; [eauto|]. split; [done|]. split; [eauto|].
      intros k d Hd. by rewrite lookup_empty in Hd.
  - rewrite (initialize_connect_fails tp m a e w1) by done.
    unfold consistent. cbn. rewrite Ha in *.
    split; [done|]. split; [eauto|]. split; [done|]. split; [done|].
    done.
Qed.

(** [_do_call] leaves the object as it is, or as [_initialize] leaves it *)
Lemma do_call_self m name args :
  self (_do_call tp name args m).2 = self m
  \/ self (_do_call tp name args m).2 = self (_initialize tp m).2.
Proof.
  unfold _do_call, _get_method, bind, get, ret, raise.
  destruct (_methods (self m) !! name) as [d|]; [|by left].
  destruct (proxy (self m)) as [p|].
  - left. unfold try_except, remote, raise.
    repeat case_match; simplify_eq/=; done.
  - right. by destruct (_initialize tp m) as [[[]|e] m'].
Qed.

Lemma do_call_consistent m name args :
  consistent (self m) -> consistent (self (_do_call tp name args m).2).
Proof.
  intros Hc. destruct (do_call_self m name args) as [-> | ->]; [done|].
  by apply initialize_consistent.
Qed.

Lemma after_consistent o m :
  consistent (self m) -> consistent (self (after tp o m)).
Proof.
  intros Hc. destruct o as [n|n args|n args|]; cbn [after].
  - destruct (getattr_run tp m n) as [-> _]. by apply initialize_consistent.
  - rewrite invoke_run. apply initialize_consistent in Hc.
    destruct (_initialize tp m) as [[[]|e] m']; [|done].
    by apply do_call_consistent.
  - by apply do_call_consistent.
  - rewrite print_methods_run. apply initialize_consistent in Hc.
    by destruct (_initialize tp m) as [[[]|e] m'].
Qed.

Lemma reachable_is_consistent m : reachable tp m -> consistent (self m).
Proof.
  induction 1 as [address o w Ho | o m _ IH | m w _ IH].
  - by apply (new_consistent address).
  - by apply after_consistent.
  - exact IH.
Qed.

End Reachable.

(** X5: in every state that an object goes through, from its construction
    on, the address is a normalized one; an initialized object has no
    recorded failure and has a proxy; an object whose catalog holds an
    entry has a proxy; and every descriptor of the catalog holds only its
    remote name, which translates to the key of the descriptor. *)
Theorem reachable_states_consistent {World Proxy} (tp : transport World Proxy)
    (m : machine World Proxy) :
  reachable tp m ->
  (exists a, _address (self m) = normalize a)
  /\ (_initialized (self m) = true ->
      _fail_exc (self m) = None /\ is_Some (proxy (self m)))
  /\ (_methods (self m) <> ∅ -> is_Some (proxy (self m)))
  /\ (forall k d, _methods (self m) !! k = Some d ->
                 d = new_descriptor (NAME d) /\ _to_internal_name (NAME d) = k).
Proof.
  intros Hr. apply reachable_is_consistent in Hr as (? & _ & ? & ? & ?). done.
Qed.

(** On a CCU that refuses the first listing: the object after a failed call
    and a call that succeeds. *)
Lemma reachable_states_consistent_witness :
  reachable Sim.tp
    (after Sim.tp (Invoke "ccu_get_serial" [])
       (after Sim.tp (Invoke "ccu_get_serial" []) (Sim.boot Sim.down_once)))
  /\ _initialized
       (self (after Sim.tp (Invoke "ccu_get_serial" [])
                (after Sim.tp (Invoke "ccu_get_serial" []) (Sim.boot Sim.down_once))))
     = true
  /\ _fail_exc
       (self (after Sim.tp (Invoke "ccu_get_serial" [])
                (after Sim.tp (Invoke "ccu_get_serial" []) (Sim.boot Sim.down_once))))
     = None.
Proof.
  assert (reachable Sim.tp
            (after Sim.tp (Invoke "ccu_get_serial" [])
               (after Sim.tp (Invoke "ccu_get_serial" []) (Sim.boot Sim.down_once))))
    as Hr.
  { do 2 apply reachable_after.
    apply (reachable_new Sim.tp (utils.PyStr "192.168.1.26")). reflexivity. }
  split; [exact Hr|]. split; [reflexivity|].
  destruct (reachable_states_consistent Sim.tp _ Hr) as (_ & Hready & _).
  apply Hready. reflexivity.
Defined.

(** ** A first call, from the lookup to the remote method *)

(** X7: the first call on an object, when the initialization succeeds and
    the local name is that of a listed method: the remote method called is
    the first listed one that translates to the local name, through the
    proxy of this attempt and with the arguments as given; what it returns
    is returned as it is, and what it raises is mapped as in [_do_call]. *)
Theorem first_call_reaches_remote_method {World Proxy} (tp : transport World Proxy)
    (m : machine World Proxy) (a name : string) (args : list utils.pyobj)
    (p : Proxy) (methods : list string) (w' : World) (n : string) :
  _initialized (self m) = false ->
  _address (self m) = Some a ->
  init_succeeds tp a (world m) p methods w' ->
  first_named name methods = Some n ->
  (invoke tp name args m).1
  = match (remote_call tp p n args w').1 with
    | Return v => Return v
    | Raise e => Raise (surfaced (Some a) name e)
    end
  /\ world (invoke tp name args m).2 = (remote_call tp p n args w').2
  /\ _initialized (self (invoke tp name args m).2) = true
  /\ _fail_exc (self (invoke tp name args m).2) = None.
Proof.
  intros Hi Ha Hs Hn. rewrite invoke_run.
  destruct (initialize_ok tp m a p methods w' Hi Ha Hs)
    as (o & -> & Hio & Hfo & Hao & Hpo & Hms).
  rewrite (do_call_resolved tp _ name args (new_descriptor n) p).
  - unfold address. cbn [world self with_state NAME new_descriptor]. rewrite Hao.
    by destruct (remote_call tp p n args w') as [[v|e] w].
  - cbn [self with_state]. by rewrite Hms, catalog_lookup, Hn.
  - done.
Qed.

(** On the scripted CCU: [foo_bar] reaches [Foo.Bar], listed before
    [foo.bar]. *)
Lemma first_call_reaches_remote_method_witness :
  first_named "foo_bar" Sim.names = Some "Foo.Bar"
  /\ (invoke Sim.tp "foo_bar" [utils.PyInt 1]
        (Sim.boot (Sim.up [Return (utils.PyStr "KEQ0123456")]))).1
     = Return (utils.PyStr "KEQ0123456")
  /\ Sim.requests
       (world (invoke Sim.tp "foo_bar" [utils.PyInt 1]
                 (Sim.boot (Sim.up [Return (utils.PyStr "KEQ0123456")]))).2)
     = [("Foo.Bar", [utils.PyInt 1])].
Proof.
  assert (first_named "foo_bar" Sim.names = Some "Foo.Bar") as Hn
    by (vm_compute; reflexivity).
  destruct (first_call_reaches_remote_method Sim.tp
              (Sim.boot (Sim.up [Return (utils.PyStr "KEQ0123456")]))
              Sim.uri "foo_bar" [utils.PyInt 1] Sim.uri Sim.names
              (Sim.up [Return (utils.PyStr "KEQ0123456")]) "Foo.Bar")
    as (Hr & Hw & _).
  - reflexivity.
  - reflexivity.
  - exists (Sim.up [Return (utils.PyStr "KEQ0123456")]). split; reflexivity.
  - exact Hn.
  - split; [exact Hn|]. split; [exact Hr|]. rewrite Hw. reflexivity.
Defined.

(** X8: after the call of the remote method of a resolved name, the caller
    never gets a [ProtocolError] or a [Fault] of the XML-RPC library. *)
Theorem call_never_raises_library_fault {World Proxy} (tp : transport World Proxy)
    (m : machine World Proxy) (name : string) (args : list utils.pyobj)
    (d : descriptor) (p : Proxy) (detail : string) :
  _methods (self m) !! name = Some d ->
  proxy (self m) = Some p ->
  (_call tp name args m).1 <> Raise (ProtocolError detail)
  /\ (_call tp name args m).1 <> Raise (Fault detail).
Proof.
  intros Hd Hp. unfold _call. rewrite (do_call_resolved tp m name args d p Hd Hp).
  destruct (remote_call tp p (NAME d) args (world m)) as [[v|e] w]; [done|].
  by destruct e.
Qed.

(** On the scripted CCU, a call answered by a [Fault]. *)
Lemma call_never_raises_library_fault_witness :
  proxy (self (Sim.ready (Sim.up [Raise (Fault "<Fault -1: 'failed'>")]))) = Some Sim.uri
  /\ (_call Sim.tp "ccu_get_serial" []
        (Sim.ready (Sim.up [Raise (Fault "<Fault -1: 'failed'>")]))).1
     <> Raise (Fault "<Fault -1: 'failed'>").
Proof.
  split; [reflexivity|].
  apply (call_never_raises_library_fault Sim.tp
           (Sim.ready (Sim.up [Raise (Fault "<Fault -1: 'failed'>")]))
           "ccu_get_serial" [] (new_descriptor "CCU.getSerial") Sim.uri
           "<Fault -1: 'failed'>").
  - vm_compute. reflexivity.
  - reflexivity.
Defined.

(** ** The listing of [print_methods] *)

(** X9: when the initialization that [print_methods] starts fails, the
    failure is raised and nothing is written, not even the heading. *)
Theorem print_methods_writes_nothing_on_failure {World Proxy}
    (tp : transport World Proxy) (m : machine World Proxy) (a : string) (e : exn)
    (w' : World) :
  _initialized (self m) = false ->
  _address (self m) = Some a ->
  init_fails tp a (world m) e w' ->
  (print_methods tp m).1 = Raise e
  /\ stdout (print_methods tp m).2 = stdout m
  /\ _fail_exc (self (print_methods tp m).2) = Some e.
Proof.
  intros Hi Ha Hf. rewrite print_methods_run.
  destruct (initialize_fails tp m a e w' Hi Ha Hf) as (o & -> & _ & Hfo & _).
  done.
Qed.

(** On a CCU that refuses the first listing. *)
Lemma print_methods_writes_nothing_on_failure_witness :
  _initialized (self (Sim.boot Sim.down_once)) = false
  /\ (print_methods Sim.tp (Sim.boot Sim.down_once)).1 = Raise Sim.refused
  /\ stdout (print_methods Sim.tp (Sim.boot Sim.down_once)).2 = [].
Proof.
  split; [reflexivity|].
  destruct (print_methods_writes_nothing_on_failure Sim.tp (Sim.boot Sim.down_once)
              Sim.uri Sim.refused (Sim.up [])) as (Hr & Hs & _).
  - reflexivity.
  - reflexivity.
  - right. exists Sim.uri, Sim.down_once. split; reflexivity.
  - split; [exact Hr | exact Hs].
Defined.

Lemma length_sorted_items ms : length (sorted_items ms) = size ms.
Proof.
  unfold sorted_items. rewrite merge_sort_Permutation. apply length_map_to_list.
Qed.

Lemma NoDup_sorted_items ms : NoDup (sorted_items ms).*1.
Proof.
  unfold sorted_items. rewrite merge_sort_Permutation. apply NoDup_fst_map_to_list.
Qed.

(** X10: on an initialized object [print_methods] returns without touching
    the remote side or the object; what it writes is the heading and then,
    for each entry of the catalog and in the order of the local
    identifiers, the line made of [API.], the identifier, the internal
    arguments of the entry between parentheses, and its description; each
    entry of the catalog has its line, and no identifier has two. *)
Theorem print_methods_lists_catalog {World Proxy} (tp : transport World Proxy)
    (m : machine World Proxy) :
  _initialized (self m) = true ->
  (print_methods tp m).1 = Return tt
  /\ world (print_methods tp m).2 = world m
  /\ self (print_methods tp m).2 = self m
  /\ stdout (print_methods tp m).2
     = (stdout m
        ++ line_format "Method" "Description"
        :: map (fun item =>
                  line_format
                    ("API." +:+ item.1 +:+ "("
                     +:+ Py.join ", " (INT_ARGUMENTS item.2) +:+ ")")
                    (INFO item.2))
             (sorted_items (_methods (self m))))%list
  /\ (forall k d,
        (k, d) ∈ sorted_items (_methods (self m)) <-> _methods (self m) !! k = Some d)
  /\ Sorted item_le (sorted_items (_methods (self m)))
  /\ NoDup (sorted_items (_methods (self m))).*1
  /\ length (sorted_items (_methods (self m))) = size (_methods (self m)).
Proof.
  intros Hi. rewrite print_methods_run, initialize_ready by done.
  cbn [fst snd world self stdout].
  split; [done|]. split; [done|]. split; [done|]. split; [done|].
  split; [apply elem_of_sorted_items|]. split; [apply sorted_items_sorted|].
  split; [apply NoDup_sorted_items | apply length_sorted_items].
Qed.

(** The listing of the initialized object on the scripted CCU: three
    entries, as two of the four listed methods share their local name. *)
Lemma print_methods_lists_catalog_witness :
  _initialized (self (Sim.ready (Sim.up []))) = true
  /\ (print_methods Sim.tp (Sim.ready (Sim.up []))).1 = Return tt
  /\ stdout (print_methods Sim.tp (Sim.ready (Sim.up []))).2
     = [line_format "Method" "Description";
        line_format "API.ccu_get_serial()" "";
        line_format "API.foo_bar()" "";
        line_format "API.system_list_methods()" ""].
Proof.
  split; [reflexivity|].
  destruct (print_methods_lists_catalog Sim.tp (Sim.ready (Sim.up [])))
    as (Hr & _ & _ & Hout & _).
  - reflexivity.
  - split; [exact Hr|]. rewrite Hout. vm_compute. reflexivity.
Defined.

(** ** The size of the catalog *)

Section CatalogSize.

Lemma first_named_elem k methods n :
  n ∈ methods -> _to_internal_name n = k -> is_Some (first_named k methods).
Proof.
  intros Hin Hk. unfold first_named.
  destruct (List.find _ methods) as [x|] eqn:Hf; [eauto|].
  apply list_elem_of_In in Hin. apply (find_none _ _ Hf n) in Hin.
  by rewrite bool_decide_eq_true_2 in Hin.
Qed.

Lemma add_method_size ms n :
  size (add_method ms n)
  = size ms + match ms !! _to_internal_name n with Some _ => 0 | None => 1 end.
Proof.
  unfold add_method, setdefault.
  destruct (ms !! _to_internal_name n) eqn:Hk; [lia|].
  rewrite map_size_insert_None by done. lia.
Qed.

Lemma fold_add_method_size methods :
  forall ms, size (fold_left add_method methods ms) <= size ms + length methods.
Proof.
  induction methods as [|n methods IH]; intros ms; cbn [fold_left length]; [lia|].
  specialize (IH (add_method ms n)). rewrite add_method_size in IH.
  destruct (ms !! _to_internal_name n); lia.
Qed.

Lemma fold_add_method_size_distinct methods :
  forall ms,
    NoDup (_to_internal_name <$> methods) ->
    (forall n, n ∈ methods -> ms !! _to_internal_name n = None) ->
    size (fold_left add_method methods ms) = size ms + length methods.
Proof.
  induction methods as [|n methods IH]; intros ms Hnd Hfree;
    cbn [fold_left length]; [lia|].
  rewrite fmap_cons in Hnd. apply NoDup_cons in Hnd as [Hn Hnd].
  rewrite IH.
  - rewrite add_method_size, Hfree by left. lia.
  - done.
  - intros n' Hin. rewrite add_method_lookup, Hfree by (by right).
    destruct (decide (_to_internal_name n = _to_internal_name n')) as [Heq|]; [|done].
    destruct Hn. rewrite Heq. by apply list_elem_of_fmap_2.
Qed.

Lemma first_named_distinct methods n :
  NoDup (_to_internal_name <$> methods) ->
  n ∈ methods ->
  first_named (_to_internal_name n) methods = Some n.
Proof.
  intros Hnd Hin. apply list_elem_of_lookup in Hin as [i Hi].
  apply (first_named_at methods i n Hi).
  intros j n' Hlt Hj Heq.
  assert (j = i); [|lia].
  apply (NoDup_lookup (_to_internal_name <$> methods) j i (_to_internal_name n)); [done| |].
  - by rewrite list_lookup_fmap, Hj, <- Heq.
  - by rewrite list_lookup_fmap, Hi.
Qed.

End CatalogSize.

(** X11: after [_init_methods] every listed method has an entry under its
    local name, whose remote name has the same translation; the catalog has
    at most as many entries as the listing has names; when the listed names
    have distinct translations it has exactly as many, and each listed
    method is found under its local name with its own remote name. *)
Theorem catalog_covers_listing {World Proxy} (tp : transport World Proxy)
    (m : machine World Proxy) (p : Proxy) (methods : list string) (w : World) :
  proxy (self m) = Some p ->
  system_listMethods tp p (world m) = (Return methods, w) ->
  let ms := _methods (self (_init_methods tp m).2) in
  (forall n, n ∈ methods ->
     exists d, ms !! _to_internal_name n = Some d
               /\ _to_internal_name (NAME d) = _to_internal_name n)
  /\ size ms <= length methods
  /\ (NoDup (_to_internal_name <$> methods) ->
      size ms = length methods
      /\ forall n, n ∈ methods -> ms !! _to_internal_name n = Some (new_descriptor n)).
Proof.
  intros Hp Hl. rewrite (init_methods_run tp m p Hp), Hl.
  cbn [snd self with_state set_methods _methods].
  split; [|split].
  - intros n Hin.
    destruct (first_named_elem (_to_internal_name n) methods n Hin eq_refl) as [x Hx].
    exists (new_descriptor x). rewrite catalog_lookup, Hx. split; [done|].
    by apply first_named_Some in Hx as [_ ?].
  - pose proof (fold_add_method_size methods ∅) as H.
    by rewrite map_size_empty in H.
  - intros Hnd. split.
    + rewrite fold_add_method_size_distinct, map_size_empty; [done..|].
      intros n _. apply lookup_empty.
    + intros n Hin. by rewrite catalog_lookup, first_named_distinct.
Qed.

(** On the scripted CCU: four listed names, three entries. *)
Lemma catalog_covers_listing_witness :
  proxy (self (Sim.connected (Sim.up []))) = Some Sim.uri
  /\ length Sim.names = 4
  /\ size (_methods (self (_init_methods Sim.tp (Sim.connected (Sim.up []))).2)) <= 4
  /\ size (_methods (self (_init_methods Sim.tp (Sim.connected (Sim.up []))).2)) = 3.
Proof.
  split; [reflexivity|]. split; [reflexivity|].
  pose proof (catalog_covers_listing Sim.tp (Sim.connected (Sim.up [])) Sim.uri
                Sim.names (Sim.up []) eq_refl eq_refl) as H.
  cbv zeta in H. destruct H as (_ & Hle & _).
  split; [exact Hle|]. vm_compute. reflexivity.
Defined.

(** ** The example script *)

Lemma report_returns (l : list (string * bool)) :
  low_battery.report
    (map (fun x => {| low_battery.name := x.1; low_battery.battery_low := Return x.2 |}) l)
  = (Return tt,
     (map (fun x => "  " +:+ x.1) (List.filter snd l)
      ++ ["  All battery powered devices are fine."])%list).
Proof.
  induction l as [|[n low] l IH]; [reflexivity|].
  cbn [map low_battery.report low_battery.battery_low low_battery.name fst snd List.filter].
  rewrite IH. by destruct low.
Qed.

(** X12: when nothing raises, the script prints the heading, then the name
    of each device whose battery is low, in the order of the devices, and
    then, whether or not a device was named, the line that tells that all
    devices are fine: the [else] of a loop without [break] always runs. *)
Theorem low_battery_report_always_ends_fine {API} (api : API)
    (l : list (string * bool)) :
  low_battery.main (Return api)
    (fun _ =>
       Return (map (fun x => {| low_battery.name := x.1;
                                low_battery.battery_low := Return x.2 |}) l))
  = (Return tt,
     ("Low battery: "
      :: map (fun x => "  " +:+ x.1) (List.filter snd l)
      ++ ["  All battery powered devices are fine."])%list).
Proof. unfold low_battery.main. by rewrite report_returns. Qed.

(** ** The characters of a local identifier *)

Section Characters.

Variable P : ascii -> bool.

Lemma all_chars_app a b : all_chars P (a +:+ b) = all_chars P a && all_chars P b.
Proof.
  induction a as [|c a IH]; [reflexivity|].
  rewrite app_cons. cbn [all_chars]. by rewrite IH, andb_assoc.
Qed.

Lemma replace_from_all_chars old new :
  all_chars P new = true ->
  forall s k, all_chars P s = true -> all_chars P (Py.replace_from old new k s) = true.
Proof.
  intros Hnew. induction s as [|c s IH]; intros k Hs; [done|].
  cbn [all_chars] in Hs. apply andb_true_iff in Hs as [Hc Hs].
  cbn [Py.replace_from]. destruct k as [|k]; [|by apply IH].
  destruct (String.prefix old (String c s)).
  - rewrite all_chars_app, Hnew. by apply IH.
  - cbn [all_chars]. rewrite Hc. by apply IH.
Qed.

Lemma intersperse_all_chars new s :
  all_chars P new = true -> all_chars P s = true ->
  all_chars P (Py.intersperse new s) = true.
Proof.
  intros Hnew. induction s as [|c s IH]; intros Hs; [done|].
  cbn [all_chars] in Hs. apply andb_true_iff in Hs as [Hc Hs].
  cbn [Py.intersperse]. rewrite all_chars_app, Hnew. cbn [all_chars].
  rewrite Hc. by apply IH.
Qed.

(** [replace] brings in the characters of [new] only *)
Lemma replace_all_chars s old new :
  all_chars P new = true -> all_chars P s = true ->
  all_chars P (Py.replace s old new) = true.
Proof.
  intros Hnew Hs. unfold Py.replace. destruct old.
  - by apply intersperse_all_chars.
  - by apply replace_from_all_chars.
Qed.

Hypothesis P_underscore : P "_" = true.

Lemma split_segments_all_chars n :
  forall s b, String.length s <= n -> all_chars P s = true ->
    all_chars P (utils.split_segments b s) = true.
Proof.
  induction n as [|n IH]; intros s b Hlen Hs.
  - destruct s; [done | cbn in Hlen; lia].
  - destruct s as [|c s]; [done|].
    cbn [String.length] in Hlen. cbn [all_chars] in Hs.
    apply andb_true_iff in Hs as [Hc Hs].
    cbn [utils.split_segments].
    destruct (b && Py.is_lower c).
    { cbn [all_chars]. rewrite Hc. apply IH; [lia | done]. }
    destruct s as [|u [|l s]].
    + cbn [all_chars]. rewrite Hc. apply IH; [cbn in Hlen |- *; lia | done].
    + cbn [all_chars]. rewrite Hc. apply IH; [cbn in Hlen |- *; lia | done].
    + destruct (Py.is_dot c && Py.is_upper u && Py.is_lower l).
      * cbn [all_chars] in Hs |- *.
        apply andb_true_iff in Hs as [Hu Hs]. apply andb_true_iff in Hs as [Hl Hs].
        rewrite Hc, P_underscore, Hu, Hl. apply IH; [cbn in Hlen |- *; lia | done].
      * cbn [all_chars]. rewrite Hc. apply IH; [lia | done].
Qed.

Lemma split_humps_all_chars n :
  forall s, String.length s <= n -> all_chars P s = true ->
    all_chars P (utils.split_humps s) = true.
Proof.
  induction n as [|n IH]; intros s Hlen Hs.
  - destruct s; [done | cbn in Hlen; lia].
  - destruct s as [|c s]; [done|].
    cbn [String.length] in Hlen. cbn [all_chars] in Hs.
    apply andb_true_iff in Hs as [Hc Hs].
    cbn [utils.split_humps]. destruct s as [|u s].
    + cbn [all_chars]. by rewrite Hc.
    + destruct (Py.is_lower_or_digit c && Py.is_upper u).
      * cbn [all_chars] in Hs |- *. apply andb_true_iff in Hs as [Hu Hs].
        rewrite Hc, P_underscore, Hu. apply IH; [cbn in Hlen |- *; lia | done].
      * cbn [all_chars]. rewrite Hc. apply IH; [lia | done].
Qed.

End Characters.

Section Identifier.

(** the first step leaves no dot *)
Lemma replace_dots s : all_chars not_dot (Py.replace s "." "_") = true.
Proof.
  unfold Py.replace. induction s as [|c s IH]; [done|].
  cbn [Py.replace_from]. rewrite prefix_cons.
  destruct (ascii_dec "." c) as [<-|Hne].
  - rewrite prefix_empty. exact IH.
  - cbn [all_chars]. rewrite IH, andb_true_r.
    unfold not_dot. apply negb_true_iff, Ascii.eqb_neq. congruence.
Qed.

Lemma lower_char_identifier c : not_dot c = true -> identifier_char (Py.lower_char c) = true.
Proof.
  destruct c as [b0 b1 b2 b3 b4 b5 b6 b7].
  destruct b0, b1, b2, b3, b4, b5, b6, b7; vm_compute; congruence.
Qed.

Lemma lower_identifier s :
  all_chars not_dot s = true -> all_chars identifier_char (Py.lower s) = true.
Proof.
  induction s as [|c s IH]; [done|]. cbn [all_chars Py.lower].
  intros [Hc Hs]%andb_true_iff. by rewrite lower_char_identifier, IH.
Qed.

Lemma decamel_identifier s :
  all_chars not_dot s = true -> all_chars identifier_char (utils.decamel s) = true.
Proof.
  intros Hs. unfold utils.decamel. apply lower_identifier.
  apply (split_humps_all_chars not_dot eq_refl _ _ (le_n _)).
  by apply (split_segments_all_chars not_dot eq_refl _ _ _ (le_n _)).
Qed.

End Identifier.

(** X13: whatever the remote name, its local identifier holds no dot and
    no capital letter ([decamel], which ends by lower-casing, is as
    modelled above). *)
Theorem to_internal_name_is_lowercase_without_dots (method_name_api : string) :
  all_chars identifier_char (_to_internal_name method_name_api) = true.
Proof.
  unfold _to_internal_name.
  repeat (apply replace_all_chars; [reflexivity|]).
  apply decamel_identifier, replace_dots.
Qed.
